(** * Piano roll: note store, pointer interaction and playback scheduling

    Shallow embedding of [src/components/enhanced-interactive-piano-roll.tsx].

    Conventions of the embedding.
    - Grid indices ([rowIndex], [colIndex], [start], [duration]) are the
      integer results of [Math.floor] and integer arithmetic: [Z].
    - Times handed to the audio engine are JavaScript numbers of the form
      [k * 0.25] (exactly representable); they are modelled as exact
      rationals [Q], extended with [-Infinity], the value [Math.max()]
      returns on an empty argument list.
    - [allNotes[i]] is [undefined] outside the array: pitches are
      [option string], [None] standing for [undefined].
    - Every handler runs to completion and React re-renders before the next
      event is delivered, so the values a handler closes over ([notes],
      [isDragging], [selectedNote], ...) are those of the state it updates.
      A handler is a function from the state to the new state and the list
      of calls it made on the audio engine, in program order.
    - Drawing ([drawGrid], [drawNote], [drawAllNotes]) reads the state and
      writes nothing back; the handlers leave it out and the drawing
      functions are modelled on their own, as lists of canvas calls. *)

From Stdlib Require Import Ascii String DecimalString DecimalPos DecimalZ.
From Stdlib Require Import ZArith QArith Qround List Bool Lia.
Import ListNotations.

Local Open Scope Z_scope.

(** ** Constants *)

Definition NOTES : list string :=
  ["C"; "C#"; "D"; "D#"; "E"; "F"; "F#"; "G"; "G#"; "A"; "A#"; "B"]%string.
Definition OCTAVES : nat := 5.
Definition MEASURES : Z := 4.
Definition BEATS_PER_MEASURE : Z := 4.
Definition CELL_SIZE : Z := 25.

(** Number to string conversion of a template literal, for integers. *)
Definition toString (z : Z) : string := NilZero.string_of_int (Z.to_int z).

(** [Array.from({ length: OCTAVES }, (_, octave) =>
       NOTES.map(note => `${note}${OCTAVES - octave}`)).flat().reverse()] *)
Definition allNotes : list string :=
  rev (concat (map (fun octave : nat =>
                      map (fun note => (note ++ toString (Z.of_nat OCTAVES - Z.of_nat octave))%string)
                          NOTES)
                   (seq 0 OCTAVES))).

(** ** JavaScript values *)

(** A pitch name, or [undefined]. *)
Definition Pitch : Type := option string.

(** Array indexing by an integer-valued number. *)
Definition index {A : Type} (l : list A) (i : Z) : option A :=
  if i <? 0 then None else nth_error l (Z.to_nat i).

(** The numbers that reach [Tone.Transport.schedule]. *)
Inductive JsNum : Type :=
| NegInfinity : JsNum
| Finite : Q -> JsNum.

(** [Math.max(...l)]: [-Infinity] when [l] is empty. *)
Definition Math_max (l : list Z) : JsNum :=
  match l with
  | [] => NegInfinity
  | z :: l' => Finite (inject_Z (fold_left Z.max l' z))
  end.

(** [n * q] for a positive finite [q]. *)
Definition JsNum_mul (n : JsNum) (q : Q) : JsNum :=
  match n with
  | NegInfinity => NegInfinity
  | Finite r => Finite (r * q)
  end.

(** [Math.floor(x / CELL_SIZE)], as the floor of the exact quotient. The
    code divides in binary64; the rounding of the quotient is not modelled,
    and the two agree on non-negative pixel coordinates below [2^53]. *)
Definition Math_floor_div (x : Q) (d : Z) : Z := Qfloor (x / inject_Z d).

(** ** Data model *)

Record Note : Type := mkNote {
  id : string;
  note : Pitch;
  start : Z;
  duration : Z;
  rowIndex : Z;
  colIndex : Z;
  selected : bool
}.

(** The component's [useState] cells. [synth] records whether the
    [Tone.PolySynth] has been created ([null] before the mount effect). *)
Record State : Type := mkState {
  synth : bool;
  activeNotes : list Pitch;
  notes : list Note;
  isPlaying : bool;
  isDragging : bool;
  selectedNote : option Note;
  numberOfColumns : Z
}.

(** The callback passed to [Tone.Transport.schedule]. *)
Inductive Callback : Type :=
| SetIsPlayingFalse : Callback.

(** Calls on the audio engine and its transport. *)
Inductive EngineCall : Type :=
| TriggerAttack (p : Pitch)
| TriggerRelease (p : Pitch)
| TriggerAttackRelease (p : Pitch) (durationSeconds : Q) (time : Q)
| ReleaseAll
| TransportCancel
| TransportStop
| TransportSetPosition (z : Z)
| TransportSchedule (cb : Callback) (time : JsNum)
| TransportStart.

Definition initialState : State :=
  {| synth := false;
     activeNotes := [];
     notes := [];
     isPlaying := false;
     isDragging := false;
     selectedNote := None;
     numberOfColumns := MEASURES * BEATS_PER_MEASURE * 4 |}.

(** ** State setters *)

Definition setSynth (v : bool) (s : State) : State :=
  mkState v (activeNotes s) (notes s) (isPlaying s) (isDragging s)
          (selectedNote s) (numberOfColumns s).

Definition setActiveNotes (f : list Pitch -> list Pitch) (s : State) : State :=
  mkState (synth s) (f (activeNotes s)) (notes s) (isPlaying s) (isDragging s)
          (selectedNote s) (numberOfColumns s).

Definition setNotes (f : list Note -> list Note) (s : State) : State :=
  mkState (synth s) (activeNotes s) (f (notes s)) (isPlaying s) (isDragging s)
          (selectedNote s) (numberOfColumns s).

Definition setIsPlaying (v : bool) (s : State) : State :=
  mkState (synth s) (activeNotes s) (notes s) v (isDragging s)
          (selectedNote s) (numberOfColumns s).

Definition setIsDragging (v : bool) (s : State) : State :=
  mkState (synth s) (activeNotes s) (notes s) (isPlaying s) v
          (selectedNote s) (numberOfColumns s).

Definition setSelectedNote (v : option Note) (s : State) : State :=
  mkState (synth s) (activeNotes s) (notes s) (isPlaying s) (isDragging s)
          v (numberOfColumns s).

Definition setNumberOfColumns (f : Z -> Z) (s : State) : State :=
  mkState (synth s) (activeNotes s) (notes s) (isPlaying s) (isDragging s)
          (selectedNote s) (f (numberOfColumns s)).

(** Object spreads that override some fields of a note. *)
Definition withSelected (b : bool) (n : Note) : Note :=
  mkNote (id n) (note n) (start n) (duration n) (rowIndex n) (colIndex n) b.

Definition withPosition (col row : Z) (p : Pitch) (n : Note) : Note :=
  mkNote (id n) p (start n) (duration n) row col (selected n).

(** ** Piano keys *)

Definition optStringEqb (a b : Pitch) : bool :=
  match a, b with
  | Some x, Some y => String.eqb x y
  | None, None => true
  | _, _ => false
  end.

Definition playNote (p : Pitch) (s : State) : State * list EngineCall :=
  if synth s
  then (setActiveNotes (fun prev => prev ++ [p]) s, [TriggerAttack p])
  else (s, []).

Definition stopNote (p : Pitch) (s : State) : State * list EngineCall :=
  if synth s
  then (setActiveNotes (filter (fun n => negb (optStringEqb n p))) s,
        [TriggerRelease p])
  else (s, []).

(** ** Pointer handlers

    [x] and [y] are the surface-relative coordinates
    [event.clientX - rect.left] and [event.clientY - rect.top]. *)

(** The hit test both [handleCanvasClick] and [handleMouseDown] perform:
    [notes.find(note => note.rowIndex === rowIndex &&
       colIndex >= note.colIndex && colIndex < note.colIndex + note.duration)]. *)
Definition hits (row col : Z) (n : Note) : bool :=
  (rowIndex n =? row) && (col >=? colIndex n) && (col <? colIndex n + duration n).

Definition clickedNote (ns : list Note) (row col : Z) : option Note :=
  find (hits row col) ns.

(** [`note-${Date.now()}`] *)
Definition noteId (dateNow : Z) : string := ("note-" ++ toString dateNow)%string.

Definition handleCanvasClick (x y : Q) (dateNow : Z) (s : State)
  : State * list EngineCall :=
  let col := Math_floor_div x CELL_SIZE in
  let row := Math_floor_div y CELL_SIZE in
  match clickedNote (notes s) row col with
  | Some c =>
      let s1 := setSelectedNote (Some c) s in
      (setNotes (map (fun n => withSelected (String.eqb (id n) (id c)) n)) s1, [])
  | None =>
      if negb (isDragging s) then
        let newNote :=
          {| id := noteId dateNow;
             note := index allNotes row;
             start := col;
             duration := 1;
             rowIndex := row;
             colIndex := col;
             selected := true |} in
        let s1 := setNotes (fun prev => map (withSelected false) prev ++ [newNote]) s in
        let s2 := setSelectedNote (Some newNote) s1 in
        let (s3, calls) := playNote (note newNote) s2 in
        let s4 := if col >=? numberOfColumns s - 1
                  then setNumberOfColumns (fun prevCols => prevCols + 50) s3
                  else s3 in
        (s4, calls)
      else (s, [])
  end.

Definition handleMouseDown (x y : Q) (s : State) : State :=
  let col := Math_floor_div x CELL_SIZE in
  let row := Math_floor_div y CELL_SIZE in
  match clickedNote (notes s) row col with
  | Some c => setIsDragging true (setSelectedNote (Some c) s)
  | None => s
  end.

Definition handleMouseMove (x y : Q) (s : State) : State :=
  match isDragging s, selectedNote s with
  | true, Some sel =>
      let newColIndex := Math_floor_div x CELL_SIZE in
      let newRowIndex := Math_floor_div y CELL_SIZE in
      setNotes (map (fun n =>
                       if String.eqb (id n) (id sel)
                       then withPosition newColIndex newRowIndex
                                         (index allNotes newRowIndex) n
                       else n)) s
  | _, _ => s
  end.

Definition handleMouseUp (s : State) : State := setIsDragging false s.

(** ** Playback *)

Definition secondsPerCell : Q := 25 # 100.

(** [now] is the value of [Tone.now()]. *)
Definition playRecorded (now : Q) (s : State) : State * list EngineCall :=
  if synth s && negb (isPlaying s) then
    let maxDuration :=
      JsNum_mul (Math_max (map (fun n => start n + duration n) (notes s)))
                secondsPerCell in
    (setIsPlaying true s,
     [TransportCancel; TransportStop; TransportSetPosition 0]
       ++ map (fun n => TriggerAttackRelease (note n)
                          (inject_Z (duration n) * secondsPerCell)
                          (now + inject_Z (start n) * secondsPerCell))
              (notes s)
       ++ [TransportSchedule SetIsPlayingFalse maxDuration; TransportStart])
  else (s, []).

Definition stopPlayback (s : State) : State * list EngineCall :=
  (setIsPlaying false s,
   [TransportStop; TransportCancel] ++ (if synth s then [ReleaseAll] else [])).

(** ** Events

    What the rendered component reacts to: the mount effect that creates the
    synth, the canvas listeners ([onMouseLeave] is bound to [handleMouseUp]),
    the play/stop button ([isPlaying ? stopPlayback : playRecorded]), the
    piano keys and the transport firing the scheduled callback. *)
Inductive Event : Type :=
| SynthCreated
| Click (x y : Q) (dateNow : Z)
| MouseDown (x y : Q)
| MouseMove (x y : Q)
| MouseUp
| MouseLeave
| PlayStopButton (now : Q)
| ScheduledCallback (cb : Callback)
| PianoMouseDown (p : string)
| PianoMouseUp (p : string)
| PianoMouseLeave (p : string).

Definition step (s : State) (e : Event) : State * list EngineCall :=
  match e with
  | SynthCreated => (setSynth true s, [])
  | Click x y dateNow => handleCanvasClick x y dateNow s
  | MouseDown x y => (handleMouseDown x y s, [])
  | MouseMove x y => (handleMouseMove x y s, [])
  | MouseUp => (handleMouseUp s, [])
  | MouseLeave => (handleMouseUp s, [])
  | PlayStopButton now => if isPlaying s then stopPlayback s else playRecorded now s
  | ScheduledCallback SetIsPlayingFalse => (setIsPlaying false s, [])
  | PianoMouseDown p => playNote (Some p) s
  | PianoMouseUp p => stopNote (Some p) s
  | PianoMouseLeave p => stopNote (Some p) s
  end.

(** Runs a sequence of events, collecting the engine calls. *)
Fixpoint run (s : State) (es : list Event) : State * list EngineCall :=
  match es with
  | [] => (s, [])
  | e :: es' =>
      let (s1, c1) := step s e in
      let (s2, c2) := run s1 es' in
      (s2, c1 ++ c2)
  end.

Definition stateAfter (es : list Event) : State := fst (run initialState es).

(** ** Predicates of the specification *)

(** The [Date.now()] readings of the clicks of a session. *)
Fixpoint clickStamps (es : list Event) : list Z :=
  match es with
  | [] => []
  | Click _ _ dateNow :: es' => dateNow :: clickStamps es'
  | _ :: es' => clickStamps es'
  end.

(** Number of notes whose [selected] flag is set. *)
Definition selectedCount (ns : list Note) : nat :=
  length (filter selected ns).

(** The cached column agrees with the start column. *)
Definition colSynced (n : Note) : Prop := colIndex n = start n.

(** The calls of a log that trigger a timed note. *)
Definition isAttackRelease (c : EngineCall) : bool :=
  match c with
  | TriggerAttackRelease _ _ _ => true
  | _ => false
  end.

(** The calls of a log that schedule a transport callback. *)
Definition isSchedule (c : EngineCall) : bool :=
  match c with
  | TransportSchedule _ _ => true
  | _ => false
  end.

(** The timed note [playRecorded] triggers for a stored note. *)
Definition attackReleaseOf (now : Q) (n : Note) : EngineCall :=
  TriggerAttackRelease (note n)
                       (inject_Z (duration n) * secondsPerCell)
                       (now + inject_Z (start n) * secondsPerCell).

(** ** Sample sessions

    Pixel [(80, 10)] lies in cell (row 0, column 3), pixel [(260, 10)] in
    cell (row 0, column 10), pixel [(10, 10)] in cell (row 0, column 0). *)

(** A press, release and click on the empty cell (0, 3). *)
Definition placeTrace : list Event :=
  [SynthCreated; MouseDown 80 10; MouseUp; Click 80 10 1000].

(** The note is then pressed ... *)
Definition pressTrace : list Event := placeTrace ++ [MouseDown 80 10].

(** ... and dragged to column 10 ... *)
Definition dragTrace : list Event := pressTrace ++ [MouseMove 260 10].

(** ... and released. *)
Definition dropTrace : list Event := dragTrace ++ [MouseUp].

(** The note the click of [placeTrace] creates. *)
Definition placedNote : Note :=
  mkNote "note-1000" (Some "B1"%string) 3 1 0 3 true.

(** A store holding the single note of the playback scenario. *)
Definition c4Note : Note := mkNote "note-1" (Some "C4"%string) 0 2 48 0 false.

Definition c4State : State :=
  mkState true [] [c4Note] false false None 64.

(** Two empty cells clicked while [Date.now()] reads 1000, then a click
    on the first of the two notes. *)
Definition sameStampTrace : list Event :=
  [SynthCreated;
   MouseDown 10 10; MouseUp; Click 10 10 1000;
   MouseDown 80 10; MouseUp; Click 80 10 1000;
   MouseDown 10 10; MouseUp; Click 10 10 1001].

(** The same gestures with a clock that has advanced between the clicks. *)
Definition freshStampTrace : list Event :=
  [SynthCreated;
   MouseDown 10 10; MouseUp; Click 10 10 1000;
   MouseDown 80 10; MouseUp; Click 80 10 1007;
   MouseDown 10 10; MouseUp; Click 10 10 1015].

(** The two same-stamp notes, the first of them pressed. *)
Definition sameStampPressTrace : list Event :=
  sameStampTrace ++ [MouseDown 10 10].

(** The two notes with distinct ids, the first of them pressed. *)
Definition freshStampPressTrace : list Event :=
  freshStampTrace ++ [MouseDown 10 10].

(** A click one row below the last row of the lattice (row 60). *)
Definition belowLatticeTrace : list Event :=
  [SynthCreated; Click 10 1510 1000].

(** The span test of the specification, as a proposition. *)
Definition inSpan (row col : Z) (n : Note) : Prop :=
  rowIndex n = row /\ colIndex n <= col < colIndex n + duration n.

(** What a drag step to cell [(newRow, newCol)] may do to one note while
    the note [sel] is held. *)
Definition movedAs (sel : Note) (newRow newCol : Z) (n n' : Note) : Prop :=
  id n' = id n /\ duration n' = duration n /\
  start n' = start n /\ selected n' = selected n /\
  (id n = id sel ->
     rowIndex n' = newRow /\ colIndex n' = newCol /\
     note n' = index allNotes newRow) /\
  (id n <> id sel -> n' = n).

(** Two notes that differ at most in their [selected] flag. *)
Definition sameButSelected (n n' : Note) : Prop :=
  id n' = id n /\ note n' = note n /\ start n' = start n /\
  duration n' = duration n /\ rowIndex n' = rowIndex n /\
  colIndex n' = colIndex n.

(** ** Drawing

    The two canvases are [numberOfColumns * CELL_SIZE] wide and
    [allNotes.length * CELL_SIZE] high. A drawing function is modelled by
    the list of calls it makes on the 2-D context, in program order.
    Rectangle coordinates are products of integers; the text baseline,
    [y + height / 2 + 4], is a rational. *)

Definition NOTE_WIDTH : Z := CELL_SIZE.
Definition NOTE_HEIGHT : Z := CELL_SIZE.
Definition SELECTED_NOTE_COLOR : string := "#88178F".
Definition NOTE_COLOR : string := "#276C9E".

Inductive CanvasCall : Type :=
| ClearRect (x y w h : Z)
| BeginPath
| Rect (x y w h : Z)
| SetStrokeStyle (c : string)
| Stroke
| SetFillStyle (c : string)
| FillRect (x y w h : Z)
| SetFont (f : string)
| FillText (text : Pitch) (x y : Q).

(** The values [0, 1, ..., n - 1] a counting loop [for (i = 0; i < n; i++)]
    runs through; none when [n <= 0]. *)
Definition loopRange (n : Z) : list Z := map Z.of_nat (seq 0 (Z.to_nat n)).

Definition drawGrid (canvasWidth canvasHeight : Z) (numberOfRows numberOfColumns : Z)
  : list CanvasCall :=
  [ClearRect 0 0 canvasWidth canvasHeight; BeginPath]
    ++ flat_map (fun row =>
                   map (fun col => Rect (col * CELL_SIZE) (row * CELL_SIZE)
                                        CELL_SIZE CELL_SIZE)
                       (loopRange numberOfColumns))
                (loopRange numberOfRows)
    ++ [SetStrokeStyle "lightgray"; Stroke].

Definition drawNote (n : Note) : list CanvasCall :=
  let x := colIndex n * NOTE_WIDTH in
  let y := rowIndex n * NOTE_HEIGHT in
  let width := NOTE_WIDTH * duration n in
  let height := NOTE_HEIGHT in
  let noteColor := if selected n then SELECTED_NOTE_COLOR else NOTE_COLOR in
  [SetFillStyle noteColor;
   FillRect x y width height;
   SetFillStyle "white";
   SetFont "10px Arial";
   FillText (note n) (inject_Z x + 2) (inject_Z y + inject_Z height / 2 + 4)].

(** The grid layer as the [numberOfColumns] effect paints it. *)
Definition gridLayer (s : State) : list CanvasCall :=
  drawGrid (numberOfColumns s * CELL_SIZE)
           (Z.of_nat (length allNotes) * CELL_SIZE)
           (Z.of_nat (length allNotes)) (numberOfColumns s).

(** The notes layer as painted from the state [s]. *)
Definition drawAllNotes (s : State) : list CanvasCall :=
  ClearRect 0 0 (numberOfColumns s * CELL_SIZE)
            (Z.of_nat (length allNotes) * CELL_SIZE)
    :: flat_map drawNote (notes s).

(** ** Further predicates *)

(** The pixel [(px, py)] lies in the rectangle [drawNote] fills for [n]. *)
Definition inDrawnRect (px py : Q) (n : Note) : Prop :=
  (inject_Z (colIndex n * NOTE_WIDTH) <= px
   /\ px < inject_Z (colIndex n * NOTE_WIDTH + NOTE_WIDTH * duration n)
   /\ inject_Z (rowIndex n * NOTE_HEIGHT) <= py
   /\ py < inject_Z (rowIndex n * NOTE_HEIGHT + NOTE_HEIGHT))%Q.

Definition isRect (c : CanvasCall) : bool :=
  match c with
  | Rect _ _ _ _ => true
  | _ => false
  end.

(** The canvas listeners among the events. *)
Definition isPointerEvent (e : Event) : bool :=
  match e with
  | Click _ _ _ | MouseDown _ _ | MouseMove _ _ | MouseUp | MouseLeave => true
  | _ => false
  end.

(** Calls that silence a voice. *)
Definition isRelease (c : EngineCall) : bool :=
  match c with
  | TriggerRelease _ | ReleaseAll => true
  | _ => false
  end.

(** Number of [Click] events of a session. *)
Definition clickCount (es : list Event) : nat := length (clickStamps es).

(** The pitch the lattice construction puts in row [row]: the note names
    run backwards within an octave, the octaves upwards. *)
Definition latticePitch (row : Z) : string :=
  (nth (Z.to_nat (11 - row mod 12)) NOTES "" ++ toString (row / 12 + 1))%string.

(** A press on a note, a drag to another pixel, the release and the click
    the browser reports at the release point. *)
Definition dragGesture (x y x' y' : Q) (dateNow : Z) : list Event :=
  [MouseDown x y; MouseMove x' y'; MouseUp; Click x' y' dateNow].

(** What every handler keeps of a stored note. *)
Definition keeps (n n' : Note) : Prop :=
  id n' = id n /\ start n' = start n /\ duration n' = duration n.

(** The pointer position of an event lies on the notes canvas as it is
    sized in state [s]: [0 <= x < numberOfColumns * CELL_SIZE] and
    [0 <= y < allNotes.length * CELL_SIZE]. Events without a position
    count as inside. *)
Definition onCanvas (s : State) (x y : Q) : bool :=
  Qle_bool 0 x
  && negb (Qle_bool (inject_Z (numberOfColumns s * CELL_SIZE)) x)
  && Qle_bool 0 y
  && negb (Qle_bool (inject_Z (Z.of_nat (length allNotes) * CELL_SIZE)) y).

Definition insideCanvas (s : State) (e : Event) : bool :=
  match e with
  | Click x y _ | MouseDown x y | MouseMove x y => onCanvas s x y
  | _ => true
  end.

(** Every event of the session is delivered at a position on the canvas
    of the state it is delivered in. *)
Fixpoint sessionInside (s : State) (es : list Event) : bool :=
  match es with
  | [] => true
  | e :: es' => insideCanvas s e && sessionInside (fst (step s e)) es'
  end.

(** The cell of a note lies on the grid of state [s]. *)
Definition onGrid (s : State) (n : Note) : Prop :=
  0 <= rowIndex n < Z.of_nat (length allNotes)
  /\ 0 <= colIndex n < numberOfColumns s.

Definition isFillRect (c : CanvasCall) : bool :=
  match c with
  | FillRect _ _ _ _ => true
  | _ => false
  end.

(** * Properties *)

(** ** The pitch lattice *)

Example allNotes_length : length allNotes = 60%nat.
Proof. reflexivity. Qed.

Example allNotes_first : index allNotes 0 = Some "B1"%string.
Proof. reflexivity. Qed.

Example allNotes_last : index allNotes 59 = Some "C5"%string.
Proof. reflexivity. Qed.

(** ** Generic facts about setters, [run] and reachable states *)

Lemma run_cons (s : State) (e : Event) (es : list Event) :
  fst (run s (e :: es)) = fst (run (fst (step s e)) es).
Proof.
  simpl. destruct (step s e) as [s1 c1]. simpl.
  destruct (run s1 es) as [s2 c2]. reflexivity.
Qed.

(** A property of the initial state that every handler preserves holds
    after every sequence of events. *)
Lemma stateAfter_ind (P : State -> Prop) :
  P initialState ->
  (forall s e, P s -> P (fst (step s e))) ->
  forall es, P (stateAfter es).
Proof.
  intros H0 Hstep es. unfold stateAfter.
  generalize initialState H0. induction es as [|e es IH]; intros s Hs.
  - exact Hs.
  - rewrite run_cons. apply IH, Hstep, Hs.
Qed.

(** Mapping [f] over a list relates each element to its image. *)
Lemma Forall2_map_self {A B : Type} (R : A -> B -> Prop) (f : A -> B) (l : list A) :
  (forall a, R a (f a)) -> Forall2 R l (map f l).
Proof.
  intros HR. induction l as [|a l IH]; simpl; constructor; auto.
Qed.

Lemma hits_inSpan (row col : Z) (n : Note) :
  hits row col n = true <-> inSpan row col n.
Proof.
  unfold hits, inSpan. rewrite !andb_true_iff, Z.eqb_eq, Z.geb_le, Z.ltb_lt. lia.
Qed.

Lemma hits_false_inSpan (row col : Z) (n : Note) :
  hits row col n = false <-> ~ inSpan row col n.
Proof.
  rewrite <- hits_inSpan. destruct (hits row col n); split; congruence.
Qed.

(** [find] returns the first element that satisfies the test. *)
Lemma find_first {A : Type} (f : A -> bool) (l : list A) :
  match find f l with
  | Some a => exists before after,
      l = before ++ a :: after /\ f a = true /\ Forall (fun b => f b = false) before
  | None => Forall (fun b => f b = false) l
  end.
Proof.
  induction l as [|a l IH]; simpl.
  - constructor.
  - destruct (f a) eqn:Ha.
    + exists [], l. repeat split; auto.
    + destruct (find f l) as [b|].
      * destruct IH as (before & after & -> & Hb & Hbefore).
        exists (a :: before), after. repeat split; auto.
      * constructor; assumption.
Qed.

(** ** C9: the hit test *)

(** C9. The hit test returns a note if and only if some note of the store
    lies in the clicked row and spans the clicked column
    ([colIndex <= col < colIndex + duration]); the note returned is the first
    such note in store order: it matches, and no note before it does. *)
Theorem clickedNote_first_match (ns : list Note) (row col : Z) :
  ((exists n, clickedNote ns row col = Some n) <->
   (exists n, In n ns /\ inSpan row col n))
  /\
  match clickedNote ns row col with
  | Some n => exists before after,
      ns = before ++ n :: after /\ inSpan row col n /\
      Forall (fun m => ~ inSpan row col m) before
  | None => Forall (fun m => ~ inSpan row col m) ns
  end.
Proof.
  unfold clickedNote.
  pose proof (find_first (hits row col) ns) as Hfind.
  split.
  - split.
    + intros [n Hn]. exists n. apply find_some in Hn.
      destruct Hn as [Hin Hhit]. split; [assumption|]. now apply hits_inSpan.
    + intros (n & Hin & Hspan).
      destruct (find (hits row col) ns) as [m|] eqn:Hm; [now exists m|].
      exfalso. apply (find_none _ _ Hm) in Hin.
      apply hits_false_inSpan in Hin. contradiction.
  - destruct (find (hits row col) ns) as [n|].
    + destruct Hfind as (before & after & Hns & Hhit & Hbefore).
      exists before, after. repeat split.
      * assumption.
      * now apply hits_inSpan in Hhit as [? ?].
      * now apply hits_inSpan in Hhit as [? ?].
      * now apply hits_inSpan in Hhit as [? ?].
      * eapply Forall_impl; [|exact Hbefore].
        intros m Hm. now apply hits_false_inSpan.
    + eapply Forall_impl; [|exact Hfind].
      intros m Hm. now apply hits_false_inSpan.
Qed.

(** Two overlapping notes in one row: the one created first wins. *)
Example clickedNote_overlap :
  clickedNote [mkNote "note-1" (Some "B1"%string) 2 3 0 2 false;
               mkNote "note-2" (Some "B1"%string) 3 1 0 3 true] 0 3
  = Some (mkNote "note-1" (Some "B1"%string) 2 3 0 2 false).
Proof. reflexivity. Qed.

(** ** C8: a drag step *)

(** While a note is being dragged, a pointer move keeps the store's
    length and order; every note with the held id keeps its id and duration
    (and its start and selected flag) and gets the new rowIndex, colIndex and
    pitch; every note with another id is unchanged; the rest of the state
    is unchanged. *)
Lemma handleMouseMove_by_id (x y : Q) (s : State) (sel : Note) :
  isDragging s = true ->
  selectedNote s = Some sel ->
  let s' := handleMouseMove x y s in
  Forall2 (movedAs sel (Math_floor_div y CELL_SIZE) (Math_floor_div x CELL_SIZE))
          (notes s) (notes s')
  /\ selectedNote s' = selectedNote s
  /\ isDragging s' = isDragging s
  /\ numberOfColumns s' = numberOfColumns s
  /\ isPlaying s' = isPlaying s
  /\ activeNotes s' = activeNotes s
  /\ synth s' = synth s.
Proof.
  intros Hdrag Hsel. unfold handleMouseMove. rewrite Hdrag, Hsel. simpl.
  repeat split; try assumption.
  apply Forall2_map_self. intros n.
  unfold movedAs. destruct (String.eqb_spec (id n) (id sel)) as [He|Hne].
  - simpl. repeat split; intros; try reflexivity. contradiction.
  - repeat split; intros; try reflexivity; contradiction.
Qed.

(** C8 (counterexample). The drag step moves every note that carries the
    held id: in the store with two notes of id [note-1000], a press on the
    first and one move to cell (1, 10) rewrite both notes, so no single
    moved note leaves all the others unchanged. *)
Lemma drag_moves_same_id_twin :
  ~ (forall (x y : Q) (s : State) (sel : Note),
       isDragging s = true ->
       selectedNote s = Some sel ->
       exists i : nat, forall j : nat, j <> i ->
         nth_error (notes (handleMouseMove x y s)) j = nth_error (notes s) j).
Proof.
  intros H.
  destruct (H 260%Q 35%Q (stateAfter sameStampPressTrace)
              (mkNote "note-1000" (Some "B1"%string) 0 1 0 0 true)
              eq_refl eq_refl) as [i Hi].
  destruct i as [|i].
  - specialize (Hi 1%nat). vm_compute in Hi.
    assert (Hneq : 1%nat <> 0%nat) by discriminate.
    specialize (Hi Hneq). discriminate Hi.
  - specialize (Hi 0%nat). vm_compute in Hi.
    assert (Hneq : 0%nat <> S i) by discriminate.
    specialize (Hi Hneq). discriminate Hi.
Qed.

Example sameStampPress_drag :
  map (fun n => (id n, rowIndex n, colIndex n))
      (notes (handleMouseMove 260 35 (stateAfter sameStampPressTrace)))
  = [("note-1000"%string, 1, 10); ("note-1000"%string, 1, 10)].
Proof. reflexivity. Qed.

(** C8 (amended). When the ids of the stored notes are pairwise distinct,
    a drag step keeps the store's length and order, preserves the moved
    note's id and duration (and its start and selected flag), changes only
    its rowIndex, colIndex and pitch, and leaves every other note of the
    store unchanged: if the held id is carried by the note at position
    [i], every other position holds the note it held before. The rest of
    the state is unchanged. *)
Theorem handleMouseMove_frame_distinct (x y : Q) (s : State) (sel : Note) :
  isDragging s = true ->
  selectedNote s = Some sel ->
  NoDup (map id (notes s)) ->
  let s' := handleMouseMove x y s in
  Forall2 (movedAs sel (Math_floor_div y CELL_SIZE) (Math_floor_div x CELL_SIZE))
          (notes s) (notes s')
  /\ (forall (i : nat) (n : Note),
        nth_error (notes s) i = Some n -> id n = id sel ->
        forall j : nat, j <> i ->
          nth_error (notes s') j = nth_error (notes s) j)
  /\ selectedNote s' = selectedNote s
  /\ isDragging s' = isDragging s
  /\ numberOfColumns s' = numberOfColumns s
  /\ isPlaying s' = isPlaying s
  /\ activeNotes s' = activeNotes s
  /\ synth s' = synth s.
Proof.
  intros Hdrag Hsel Hnd.
  destruct (handleMouseMove_by_id x y s sel Hdrag Hsel)
    as (Hall & H1 & H2 & H3 & H4 & H5 & H6).
  cbv zeta. repeat split; try assumption.
  intros i n Hi Hid j Hji.
  unfold handleMouseMove. rewrite Hdrag, Hsel. simpl.
  rewrite nth_error_map.
  destruct (nth_error (notes s) j) as [m|] eqn:Hj; [|reflexivity].
  simpl. destruct (String.eqb_spec (id m) (id sel)) as [Hm|Hm]; [|reflexivity].
  exfalso. apply Hji.
  assert (Hjlt : (j < length (map id (notes s)))%nat).
  { rewrite length_map. apply nth_error_Some. congruence. }
  apply (proj1 (NoDup_nth_error (map id (notes s))) Hnd j i Hjlt).
  rewrite !nth_error_map, Hi, Hj. simpl. congruence.
Qed.

Lemma nodup_freshStampPress :
  NoDup (map id (notes (stateAfter freshStampPressTrace))).
Proof.
  vm_compute. constructor.
  - intros [H|[]]. discriminate H.
  - constructor; [intros []|constructor].
Defined.

Lemma handleMouseMove_frame_distinct_witness :
  isDragging (stateAfter freshStampPressTrace) = true
  /\ NoDup (map id (notes (stateAfter freshStampPressTrace)))
  /\ nth_error (notes (handleMouseMove 260 35 (stateAfter freshStampPressTrace))) 1
     = nth_error (notes (stateAfter freshStampPressTrace)) 1
  /\ map (fun n => (id n, rowIndex n, colIndex n))
         (notes (handleMouseMove 260 35 (stateAfter freshStampPressTrace)))
     = [("note-1000"%string, 1, 10); ("note-1007"%string, 0, 3)].
Proof.
  split; [reflexivity|]. split; [exact nodup_freshStampPress|].
  split; [|reflexivity].
  pose proof (handleMouseMove_frame_distinct 260 35
                (stateAfter freshStampPressTrace)
                (mkNote "note-1000" (Some "B1"%string) 0 1 0 0 true)
                eq_refl eq_refl nodup_freshStampPress) as (_ & Hother & _).
  apply (Hother 0%nat (mkNote "note-1000" (Some "B1"%string) 0 1 0 0 true)).
  - reflexivity.
  - reflexivity.
  - discriminate.
Defined.

(** ** C10: a click on an existing note *)

(** C10. When the click lands on a note [c], no engine call is made, no
    note is added or removed, every note keeps its id, pitch, start,
    duration, row and column (only [selected] is rewritten, to
    [id = id c]), the selected-note reference becomes [c], and the column
    count and every other state cell are unchanged. *)
Theorem handleCanvasClick_hit_frame (x y : Q) (dateNow : Z) (s : State) (c : Note) :
  clickedNote (notes s) (Math_floor_div y CELL_SIZE) (Math_floor_div x CELL_SIZE)
    = Some c ->
  let s' := fst (handleCanvasClick x y dateNow s) in
  snd (handleCanvasClick x y dateNow s) = []
  /\ length (notes s') = length (notes s)
  /\ Forall2 (fun n n' => sameButSelected n n' /\
                          selected n' = String.eqb (id n) (id c))
             (notes s) (notes s')
  /\ selectedNote s' = Some c
  /\ numberOfColumns s' = numberOfColumns s
  /\ isDragging s' = isDragging s
  /\ isPlaying s' = isPlaying s
  /\ activeNotes s' = activeNotes s
  /\ synth s' = synth s.
Proof.
  intros Hhit. unfold handleCanvasClick. rewrite Hhit. simpl.
  repeat split.
  - apply length_map.
  - apply Forall2_map_self. intros n.
    unfold sameButSelected. simpl. repeat split.
Qed.

Lemma handleCanvasClick_hit_frame_witness :
  clickedNote (notes (stateAfter placeTrace))
              (Math_floor_div 10 CELL_SIZE) (Math_floor_div 80 CELL_SIZE)
    = Some placedNote /\
  snd (handleCanvasClick 80 10 2000 (stateAfter placeTrace)) = [].
Proof.
  split; [reflexivity|].
  apply (handleCanvasClick_hit_frame 80 10 2000 (stateAfter placeTrace) placedNote).
  reflexivity.
Defined.

(** ** C6: play while playing *)

Lemma filter_isAttackRelease_map (now : Q) (ns : list Note) :
  filter isAttackRelease (map (attackReleaseOf now) ns) = map (attackReleaseOf now) ns.
Proof.
  induction ns as [|n ns IH]; simpl; [reflexivity|]. now rewrite IH.
Qed.

Lemma filter_isSchedule_map (now : Q) (ns : list Note) :
  filter isSchedule (map (attackReleaseOf now) ns) = [].
Proof.
  induction ns as [|n ns IH]; simpl; [reflexivity|]. exact IH.
Qed.

Lemma playRecorded_again (now now' : Q) (s : State) :
  playRecorded now' (fst (playRecorded now s)) = (fst (playRecorded now s), []).
Proof.
  unfold playRecorded.
  destruct (synth s) eqn:Hs, (isPlaying s) eqn:Hp; simpl;
    rewrite ?Hs, ?Hp; reflexivity.
Qed.

(** C6. [playRecorded] in a state that is already playing returns the
    state unchanged and makes no engine call; a second [playRecorded]
    right after a first one is such a no-op; and the two calls together
    trigger one timed note per stored note, in store order, and schedule
    one completion callback. *)
Theorem playRecorded_while_playing_noop (now now' : Q) (s : State) :
  (isPlaying s = true -> playRecorded now s = (s, []))
  /\ playRecorded now' (fst (playRecorded now s)) = (fst (playRecorded now s), [])
  /\ (synth s = true -> isPlaying s = false ->
      let calls := snd (playRecorded now s)
                     ++ snd (playRecorded now' (fst (playRecorded now s))) in
      filter isAttackRelease calls = map (attackReleaseOf now) (notes s)
      /\ length (filter isSchedule calls) = 1%nat).
Proof.
  split; [|split].
  - intros Hp. unfold playRecorded. rewrite Hp, andb_false_r. reflexivity.
  - apply playRecorded_again.
  - intros Hs Hp. rewrite playRecorded_again. cbn [snd]. rewrite app_nil_r.
    unfold playRecorded. rewrite Hs, Hp. cbn [andb negb snd app].
    fold (attackReleaseOf now). cbn [filter isAttackRelease isSchedule].
    rewrite !filter_app, filter_isAttackRelease_map, filter_isSchedule_map.
    simpl. rewrite app_nil_r. split; reflexivity.
Qed.

Lemma playRecorded_while_playing_noop_witness :
  isPlaying (fst (playRecorded 0 c4State)) = true /\
  playRecorded 1 (fst (playRecorded 0 c4State)) = (fst (playRecorded 0 c4State), []) /\
  synth c4State = true /\ isPlaying c4State = false /\
  length (filter isSchedule
            (snd (playRecorded 0 c4State)
               ++ snd (playRecorded 1 (fst (playRecorded 0 c4State))))) = 1%nat.
Proof.
  split; [reflexivity|]. split.
  - apply (proj1 (playRecorded_while_playing_noop 1 1 (fst (playRecorded 0 c4State)))).
    reflexivity.
  - split; [reflexivity|]. split; [reflexivity|].
    apply (proj2 (proj2 (playRecorded_while_playing_noop 0 1 c4State)));
      reflexivity.
Defined.

(** ** C7: playback of a single note *)

(** C7. With a synth, not playing, and a store that holds exactly one note
    of pitch C4, start 0 and duration 2, [playRecorded] resets the
    transport, triggers exactly one timed note, for pitch C4, lasting 0.5
    seconds and starting at [Tone.now()] (offset 0 from the session start),
    schedules the callback that ends the session at transport time 0.5,
    starts the transport and marks the session as playing; the callback,
    once fired, sets the session back to not playing. *)
Theorem playRecorded_single_C4 (now : Q) (s : State) (n : Note) :
  synth s = true ->
  isPlaying s = false ->
  notes s = [n] ->
  note n = Some "C4"%string ->
  start n = 0 ->
  duration n = 2 ->
  exists d w t : Q,
    playRecorded now s =
      (setIsPlaying true s,
       [TransportCancel; TransportStop; TransportSetPosition 0;
        TriggerAttackRelease (Some "C4"%string) d w;
        TransportSchedule SetIsPlayingFalse (Finite t);
        TransportStart])
    /\ (d == 1 # 2)%Q /\ (w - now == 0)%Q /\ (t == 1 # 2)%Q
    /\ isPlaying (fst (step (fst (playRecorded now s))
                            (ScheduledCallback SetIsPlayingFalse))) = false.
Proof.
  intros Hs Hp Hn Hpitch Hstart Hdur.
  unfold playRecorded. rewrite Hs, Hp, Hn. simpl.
  rewrite Hpitch, Hstart, Hdur. simpl.
  eexists _, _, _. split; [reflexivity|].
  repeat split; try reflexivity.
  unfold secondsPerCell. ring.
Qed.

Lemma playRecorded_single_C4_witness :
  exists d w t : Q,
    playRecorded 0 c4State =
      (setIsPlaying true c4State,
       [TransportCancel; TransportStop; TransportSetPosition 0;
        TriggerAttackRelease (Some "C4"%string) d w;
        TransportSchedule SetIsPlayingFalse (Finite t);
        TransportStart])
    /\ (d == 1 # 2)%Q /\ (w - 0 == 0)%Q /\ (t == 1 # 2)%Q
    /\ isPlaying (fst (step (fst (playRecorded 0 c4State))
                            (ScheduledCallback SetIsPlayingFalse))) = false.
Proof.
  apply (playRecorded_single_C4 0 c4State c4Note); reflexivity.
Defined.

(** ** C2: playback of an empty store *)

(** C2 (the code at the failing input). With a synth and an empty store,
    [playRecorded] marks the session as playing, resets the transport,
    takes [Math.max] of no arguments ([-Infinity]), schedules the
    completion callback at [-Infinity * 0.25 = -Infinity] and starts the
    transport; it triggers no timed note. *)
Theorem playRecorded_empty_store (now : Q) :
  notes (stateAfter [SynthCreated]) = []
  /\ playRecorded now (stateAfter [SynthCreated]) =
       (setIsPlaying true (stateAfter [SynthCreated]),
        [TransportCancel; TransportStop; TransportSetPosition 0;
         TransportSchedule SetIsPlayingFalse NegInfinity; TransportStart])
  /\ isPlaying (fst (playRecorded now (stateAfter [SynthCreated]))) = true
  /\ filter isAttackRelease (snd (playRecorded now (stateAfter [SynthCreated]))) = [].
Proof. repeat split. Qed.

(** ** C1: the cached column and the start column *)

(** A click keeps [colIndex] and [start] equal: the new note gets the
    clicked column in both fields and the others keep theirs. *)
Lemma handleCanvasClick_colSynced (x y : Q) (dateNow : Z) (s : State) :
  Forall colSynced (notes s) ->
  Forall colSynced (notes (fst (handleCanvasClick x y dateNow s))).
Proof.
  intros Hs. unfold handleCanvasClick.
  destruct (clickedNote _ _ _) as [c|].
  - simpl. apply Forall_map. eapply Forall_impl; [|exact Hs]. now intros n Hn.
  - destruct (isDragging s); simpl; [exact Hs|].
    unfold playNote. simpl.
    destruct (synth s), (_ >=? _); simpl;
      (apply Forall_app; split;
       [apply Forall_map; eapply Forall_impl; [|exact Hs]; now intros n Hn
       |constructor; [reflexivity|constructor]]).
Qed.

(** C1 (the code at the failing input). A note placed at column 3 and
    dragged to column 10 ends with [colIndex = 10] and [start = 3]: the
    drag step rewrites the cached column and leaves [start] alone, so the
    two fields differ, and playback still schedules the note at
    [now + 3 * 0.25]. *)
Theorem drag_leaves_start_behind (now : Q) :
  map (fun n => (colIndex n, start n)) (notes (stateAfter dragTrace)) = [(10, 3)]
  /\ ~ Forall colSynced (notes (stateAfter dragTrace))
  /\ Forall colSynced (notes (stateAfter pressTrace))
  /\ filter isAttackRelease (snd (playRecorded now (stateAfter dropTrace)))
     = [TriggerAttackRelease (Some "B1"%string)
          (inject_Z 1 * secondsPerCell) (now + inject_Z 3 * secondsPerCell)].
Proof.
  split; [reflexivity|]. split; [|split].
  - intros H. inversion H as [|n ns Hn Hns]; subst. discriminate Hn.
  - repeat constructor.
  - reflexivity.
Qed.

(** ** C3: a click outside the lattice rows *)

(** The note a click on an empty cell appends. *)
Lemma handleCanvasClick_create (x y : Q) (dateNow : Z) (s : State) :
  clickedNote (notes s) (Math_floor_div y CELL_SIZE) (Math_floor_div x CELL_SIZE)
    = None ->
  isDragging s = false ->
  let row := Math_floor_div y CELL_SIZE in
  let col := Math_floor_div x CELL_SIZE in
  let newNote := mkNote (noteId dateNow) (index allNotes row)
                        col 1 row col true in
  let s' := fst (handleCanvasClick x y dateNow s) in
  notes s' = map (withSelected false) (notes s) ++ [newNote]
  /\ selectedNote s' = Some newNote.
Proof.
  intros Hmiss Hdrag. unfold handleCanvasClick. rewrite Hmiss, Hdrag.
  unfold playNote. simpl.
  destruct (synth s), (_ >=? _); simpl; split; reflexivity.
Qed.

Lemma index_in_range {A : Type} (l : list A) (i : Z) :
  0 <= i < Z.of_nat (length l) -> exists a, index l i = Some a.
Proof.
  intros Hi. unfold index.
  destruct (Z.ltb_spec i 0) as [Hneg|_]; [lia|].
  destruct (nth_error l (Z.to_nat i)) as [a|] eqn:Ha; [now exists a|].
  apply nth_error_None in Ha. lia.
Qed.

(** C3 (counterexample). The click handler has no row guard: on a
    store without notes, a click in row 60, one past the last lattice row,
    adds a note whose pitch is [undefined], selects it and makes the synth
    attack [undefined]; so an out-of-range row does not leave the store
    and the selection unchanged. *)
Lemma handleCanvasClick_out_of_range_not_noop :
  ~ (forall (x y : Q) (dateNow : Z) (s : State),
       ~ (0 <= Math_floor_div y CELL_SIZE < Z.of_nat (length allNotes)) ->
       let s' := fst (handleCanvasClick x y dateNow s) in
       notes s' = notes s /\ selectedNote s' = selectedNote s /\
       numberOfColumns s' = numberOfColumns s /\
       Forall (fun n => note n <> None) (notes s')).
Proof.
  intros H.
  specialize (H 10%Q 1510%Q 1000 (stateAfter [SynthCreated])).
  destruct H as [Hnotes _]; [vm_compute; intuition discriminate|].
  vm_compute in Hnotes. discriminate Hnotes.
Qed.

Example belowLattice_adds_undefined_pitch :
  notes (stateAfter belowLatticeTrace) = [mkNote "note-1000" None 0 1 60 0 true]
  /\ snd (run initialState belowLatticeTrace) = [TriggerAttack None].
Proof. split; reflexivity. Qed.

(** C3 (amended). A click on an empty cell while no drag is in progress
    appends exactly one note, whatever the row, with pitch
    [allNotes[row]], after deselecting the others; when the row lies in
    [0, allNotes.length) that pitch is a defined pitch name. *)
Theorem handleCanvasClick_creates_in_range (x y : Q) (dateNow : Z) (s : State) :
  clickedNote (notes s) (Math_floor_div y CELL_SIZE) (Math_floor_div x CELL_SIZE)
    = None ->
  isDragging s = false ->
  let row := Math_floor_div y CELL_SIZE in
  let col := Math_floor_div x CELL_SIZE in
  let s' := fst (handleCanvasClick x y dateNow s) in
  notes s' = map (withSelected false) (notes s)
               ++ [mkNote (noteId dateNow) (index allNotes row)
                          col 1 row col true]
  /\ (0 <= row < Z.of_nat (length allNotes) ->
      exists p, index allNotes row = Some p).
Proof.
  intros Hmiss Hdrag. cbv zeta. split.
  - apply (handleCanvasClick_create x y dateNow s Hmiss Hdrag).
  - apply index_in_range.
Qed.

Lemma handleCanvasClick_creates_in_range_witness :
  notes (fst (handleCanvasClick 80 10 1000 (stateAfter [SynthCreated])))
    = [mkNote "note-1000" (Some "B1"%string) 3 1 0 3 true]
  /\ exists p, index allNotes (Math_floor_div 10 CELL_SIZE) = Some p.
Proof.
  pose proof (handleCanvasClick_creates_in_range 80 10 1000
                (stateAfter [SynthCreated]) eq_refl eq_refl) as [Hnotes Hpitch].
  split.
  - exact Hnotes.
  - apply Hpitch. vm_compute. intuition discriminate.
Defined.

(** ** C4: a single selection *)

Section SelectedCount.

Lemma selectedCount_app (ns ms : list Note) :
  selectedCount (ns ++ ms) = (selectedCount ns + selectedCount ms)%nat.
Proof. unfold selectedCount. now rewrite filter_app, length_app. Qed.

Lemma selectedCount_deselect (ns : list Note) :
  selectedCount (map (withSelected false) ns) = 0%nat.
Proof. induction ns as [|n ns IH]; simpl; [reflexivity|exact IH]. Qed.

(** Selecting by id selects as many notes as carry that id. *)
Lemma selectedCount_select (k : string) (ns : list Note) :
  selectedCount (map (fun n => withSelected (String.eqb (id n) k) n) ns)
  = length (filter (fun n => String.eqb (id n) k) ns).
Proof.
  unfold selectedCount. induction ns as [|n ns IH]; simpl; [reflexivity|].
  destruct (String.eqb (id n) k); simpl; now rewrite IH.
Qed.

Lemma id_filter_nodup (k : string) (ns : list Note) :
  NoDup (map id ns) ->
  (length (filter (fun n => String.eqb (id n) k) ns) <= 1)%nat.
Proof.
  induction ns as [|n ns IH]; simpl; intros Hnd; [lia|].
  inversion Hnd as [|k0 ks Hnotin Hnd']; subst.
  destruct (String.eqb_spec (id n) k) as [Hk|Hk]; [|auto].
  simpl. rewrite (proj2 (length_zero_iff_nil _)); [lia|].
  destruct (filter _ ns) as [|m ms] eqn:Hf; [reflexivity|].
  exfalso. apply Hnotin.
  assert (Hm : In m (filter (fun n0 => String.eqb (id n0) k) ns))
    by (rewrite Hf; now left).
  apply filter_In in Hm. destruct Hm as [Hin Hid].
  apply String.eqb_eq in Hid. rewrite Hk, <- Hid. now apply in_map.
Qed.

Lemma selectedCount_move (k : string) (col row : Z) (p : Pitch) (ns : list Note) :
  selectedCount (map (fun n => if String.eqb (id n) k
                               then withPosition col row p n else n) ns)
  = selectedCount ns.
Proof.
  unfold selectedCount. induction ns as [|n ns IH]; simpl; [reflexivity|].
  destruct (String.eqb (id n) k); simpl; destruct (selected n); simpl;
    now rewrite IH.
Qed.

Lemma ids_move (k : string) (col row : Z) (p : Pitch) (ns : list Note) :
  map id (map (fun n => if String.eqb (id n) k
                        then withPosition col row p n else n) ns)
  = map id ns.
Proof.
  rewrite map_map. apply map_ext. intros n.
  now destruct (String.eqb (id n) k).
Qed.

End SelectedCount.

(** *** Ids and clock readings *)

Lemma to_int_not_nil (z : Z) :
  Z.to_int z <> Decimal.Pos Decimal.Nil /\ Z.to_int z <> Decimal.Neg Decimal.Nil.
Proof.
  destruct z as [|p|p]; simpl; split; try discriminate;
    intros H; injection H as H; now apply (Unsigned.to_uint_nonnil p).
Qed.

Lemma toString_inj (a b : Z) : toString a = toString b -> a = b.
Proof.
  unfold toString. intros H. apply DecimalZ.to_int_inj.
  destruct (to_int_not_nil a) as [Ha1 Ha2], (to_int_not_nil b) as [Hb1 Hb2].
  pose proof (NilZero.isi _ Ha1 Ha2) as Ia.
  pose proof (NilZero.isi _ Hb1 Hb2) as Ib.
  rewrite H in Ia. congruence.
Qed.

(** Two notes share their id exactly when the clock read the same value
    at their creation. *)
Lemma noteId_inj (a b : Z) : noteId a = noteId b -> a = b.
Proof.
  unfold noteId. simpl. intros H. injection H as H. now apply toString_inj.
Qed.

(** A handler leaves the ids of the store as they are, or, for a click,
    appends the id made of the click's clock reading. *)
Lemma step_ids (s : State) (e : Event) :
  map id (notes (fst (step s e))) = map id (notes s)
  \/ exists x y t, e = Click x y t /\
       map id (notes (fst (step s e))) = map id (notes s) ++ [noteId t].
Proof.
  destruct e as [|x y t|x y|x y| | |now|cb|p|p|p]; simpl; try (now left).
  - unfold handleCanvasClick.
    destruct (clickedNote _ _ _) as [c|].
    + left. simpl. rewrite map_map. reflexivity.
    + destruct (isDragging s); simpl; [now left|].
      right. exists x, y, t. split; [reflexivity|].
      unfold playNote. simpl.
      destruct (synth s), (_ >=? _); simpl;
        rewrite map_app, map_map; reflexivity.
  - left. unfold handleMouseDown. now destruct (clickedNote _ _ _).
  - left. unfold handleMouseMove.
    destruct (isDragging s); [|reflexivity].
    destruct (selectedNote s) as [sel|]; [|reflexivity].
    simpl. apply ids_move.
  - left. destruct (isPlaying s); [reflexivity|].
    unfold playRecorded. now destruct (synth s && _).
  - left. now destruct cb.
  - left. unfold playNote. now destruct (synth s).
  - left. unfold stopNote. now destruct (synth s).
  - left. unfold stopNote. now destruct (synth s).
Qed.

Lemma run_distinct_ids (es : list Event) (s : State) :
  NoDup (map id (notes s)) ->
  NoDup (clickStamps es) ->
  (forall t, In t (clickStamps es) -> ~ In (noteId t) (map id (notes s))) ->
  NoDup (map id (notes (fst (run s es)))).
Proof.
  revert s. induction es as [|e es IH]; intros s Hs Hes Hfresh; [exact Hs|].
  rewrite run_cons.
  destruct (step_ids s e) as [Hsame|(x & y & t & -> & Happ)].
  - apply IH.
    + now rewrite Hsame.
    + destruct e; simpl in Hes; try exact Hes. now inversion Hes.
    + intros t Ht. rewrite Hsame. apply Hfresh.
      destruct e; simpl; try exact Ht. now right.
  - simpl in Hes. inversion Hes as [|t' ts Hnotin Hnd]; subst.
    apply IH.
    + rewrite Happ. apply NoDup_app; repeat split.
      * exact Hs.
      * constructor; [intros []|constructor].
      * intros k Hk [Hkt|[]]. subst k. revert Hk. apply Hfresh. now left.
    + exact Hnd.
    + intros u Hu. rewrite Happ, in_app_iff. intros [Hin|[Heq|[]]].
      * revert Hin. apply Hfresh. now right.
      * apply noteId_inj in Heq. subst u. contradiction.
Qed.

(** Clicks that read pairwise distinct clock values build a store with
    pairwise distinct ids. *)
Lemma distinct_stamps_distinct_ids (es : list Event) :
  NoDup (clickStamps es) -> NoDup (map id (notes (stateAfter es))).
Proof.
  intros Hes. apply run_distinct_ids.
  - constructor.
  - exact Hes.
  - intros t _ [].
Qed.

(** Every handler keeps: if the ids of the store are pairwise distinct,
    at most one note is selected. *)
Lemma step_selection (s : State) (e : Event) :
  (NoDup (map id (notes s)) -> (selectedCount (notes s) <= 1)%nat) ->
  NoDup (map id (notes (fst (step s e)))) ->
  (selectedCount (notes (fst (step s e))) <= 1)%nat.
Proof.
  intros IH.
  destruct e as [|x y t|x y|x y| | |now|cb|p|p|p]; simpl; try exact IH.
  - unfold handleCanvasClick.
    destruct (clickedNote _ _ _) as [c|].
    + simpl. rewrite selectedCount_select, map_map. simpl. apply id_filter_nodup.
    + destruct (isDragging s); simpl; [exact IH|].
      unfold playNote. simpl.
      destruct (synth s), (_ >=? _); simpl; intros _;
        rewrite selectedCount_app, selectedCount_deselect;
        unfold selectedCount; simpl; lia.
  - unfold handleMouseDown. destruct (clickedNote _ _ _); simpl; exact IH.
  - unfold handleMouseMove.
    destruct (isDragging s); [|exact IH].
    destruct (selectedNote s) as [sel|]; [|exact IH].
    simpl. rewrite selectedCount_move, ids_move. exact IH.
  - destruct (isPlaying s); [exact IH|].
    unfold playRecorded. destruct (synth s && _); exact IH.
  - destruct cb. exact IH.
  - unfold playNote. destruct (synth s); exact IH.
  - unfold stopNote. destruct (synth s); exact IH.
  - unfold stopNote. destruct (synth s); exact IH.
Qed.

(** C4 (counterexample). Note ids are [Date.now()] stamps: two notes
    created while the clock reads the same millisecond share their id, and
    a click on one of them sets [selected] on both. *)
Lemma same_stamp_selects_two :
  ~ (forall es : list Event, (selectedCount (notes (stateAfter es)) <= 1)%nat).
Proof.
  intros H. specialize (H sameStampTrace). vm_compute in H. lia.
Qed.

Example sameStampTrace_store :
  map (fun n => (id n, colIndex n, selected n)) (notes (stateAfter sameStampTrace))
  = [("note-1000"%string, 0, true); ("note-1000"%string, 3, true)].
Proof. reflexivity. Qed.

(** C4 (amended). In every state reached from the initial one in which
    the ids of the stored notes are pairwise distinct, at most one note has
    [selected = true]; this is so in particular after every session whose
    clicks read pairwise distinct [Date.now()] values; and right after a click on an empty cell (no drag in
    progress) exactly one note is selected: the new one, which is last in
    the store and is the selected-note reference. *)
Theorem selection_unique :
  (forall es : list Event,
     NoDup (map id (notes (stateAfter es))) ->
     (selectedCount (notes (stateAfter es)) <= 1)%nat)
  /\
  (forall es : list Event,
     NoDup (clickStamps es) ->
     (selectedCount (notes (stateAfter es)) <= 1)%nat)
  /\
  (forall (x y : Q) (dateNow : Z) (s : State),
     clickedNote (notes s) (Math_floor_div y CELL_SIZE) (Math_floor_div x CELL_SIZE)
       = None ->
     isDragging s = false ->
     let s' := fst (handleCanvasClick x y dateNow s) in
     selectedCount (notes s') = 1%nat
     /\ exists newNote,
          notes s' = map (withSelected false) (notes s) ++ [newNote]
          /\ selected newNote = true
          /\ rowIndex newNote = Math_floor_div y CELL_SIZE
          /\ colIndex newNote = Math_floor_div x CELL_SIZE
          /\ selectedNote s' = Some newNote).
Proof.
  assert (Hids : forall es : list Event,
             NoDup (map id (notes (stateAfter es))) ->
             (selectedCount (notes (stateAfter es)) <= 1)%nat).
  { apply (stateAfter_ind
             (fun s => NoDup (map id (notes s)) -> (selectedCount (notes s) <= 1)%nat)).
    - intros _. unfold selectedCount. simpl. lia.
    - exact step_selection. }
  split; [exact Hids|]. split.
  - intros es Hes. apply Hids, distinct_stamps_distinct_ids, Hes.
  - intros x y dateNow s Hmiss Hdrag. cbv zeta.
    destruct (handleCanvasClick_create x y dateNow s Hmiss Hdrag) as [Hnotes Hsel].
    split.
    + rewrite Hnotes, selectedCount_app, selectedCount_deselect.
      unfold selectedCount. reflexivity.
    + eexists. split; [exact Hnotes|]. repeat split. exact Hsel.
Qed.

Lemma nodup_freshStampTrace :
  NoDup (map id (notes (stateAfter freshStampTrace))).
Proof.
  vm_compute. constructor.
  - intros [H|[]]. discriminate H.
  - constructor; [intros []|constructor].
Defined.

Lemma nodup_freshStamps : NoDup (clickStamps freshStampTrace).
Proof.
  simpl. repeat constructor; simpl; lia.
Defined.

Lemma selection_unique_witness :
  NoDup (map id (notes (stateAfter freshStampTrace)))
  /\ NoDup (clickStamps freshStampTrace)
  /\ (selectedCount (notes (stateAfter freshStampTrace)) <= 1)%nat
  /\ (selectedCount (notes (stateAfter freshStampTrace)) <= 1)%nat
  /\ selectedCount (notes (fst (handleCanvasClick 80 10 1000 (stateAfter [SynthCreated]))))
     = 1%nat.
Proof.
  split; [exact nodup_freshStampTrace|]. split; [exact nodup_freshStamps|].
  split; [|split].
  - apply (proj1 selection_unique freshStampTrace). exact nodup_freshStampTrace.
  - apply (proj1 (proj2 selection_unique) freshStampTrace). exact nodup_freshStamps.
  - apply (proj2 (proj2 selection_unique) 80%Q 10%Q 1000 (stateAfter [SynthCreated]));
      reflexivity.
Defined.

(** ** C5: the dragged-note reference *)

(** Every handler keeps: while dragging, the reference is defined. *)
Lemma step_dragging_reference (s : State) (e : Event) :
  (isDragging s = true -> selectedNote s <> None) ->
  isDragging (fst (step s e)) = true -> selectedNote (fst (step s e)) <> None.
Proof.
  intros IH.
  destruct e as [|x y t|x y|x y| | |now|cb|p|p|p]; simpl; try exact IH;
    try discriminate.
  - unfold handleCanvasClick.
    destruct (clickedNote _ _ _) as [c|].
    + simpl. discriminate.
    + destruct (isDragging s) eqn:Hd; simpl; [now rewrite Hd|].
      unfold playNote. simpl.
      destruct (synth s), (_ >=? _); simpl; discriminate.
  - unfold handleMouseDown. destruct (clickedNote _ _ _); simpl;
      [discriminate|exact IH].
  - unfold handleMouseMove.
    destruct (isDragging s) eqn:Hd; [|now rewrite Hd].
    destruct (selectedNote s) as [sel|] eqn:Hsel; simpl;
      rewrite ?Hd, ?Hsel; [discriminate|exact IH].
  - destruct (isPlaying s); [exact IH|].
    unfold playRecorded. destruct (synth s && _); exact IH.
  - destruct cb. exact IH.
  - unfold playNote. destruct (synth s); exact IH.
  - unfold stopNote. destruct (synth s); exact IH.
  - unfold stopNote. destruct (synth s); exact IH.
Qed.

(** C5 (counterexample). The reference a drag uses is [selectedNote],
    which also records the selection: after a note is placed, pressed,
    dragged and released the controller is idle and the reference is still
    set (to the copy taken at the press), so it is neither confined to the
    dragging state nor cleared by the release. *)
Lemma reference_survives_release :
  ~ (forall es : list Event,
       selectedNote (stateAfter es) <> None -> isDragging (stateAfter es) = true).
Proof.
  intros H. specialize (H dropTrace).
  assert (Hd : isDragging (stateAfter dropTrace) = false) by reflexivity.
  rewrite H in Hd; [discriminate Hd|].
  vm_compute. discriminate.
Qed.

Example dropTrace_state :
  isDragging (stateAfter dragTrace) = true
  /\ isDragging (stateAfter dropTrace) = false
  /\ selectedNote (stateAfter dropTrace) = Some placedNote
  /\ selectedNote (fst (step (stateAfter dragTrace) MouseLeave)) = Some placedNote.
Proof. repeat split. Qed.

(** C5 (amended). In every reachable state, dragging implies that the
    reference [selectedNote] is defined; pointer-up and pointer-leave run
    the same handler, which only sets [isDragging] to false and keeps
    [selectedNote] and the store; and while the controller is not
    dragging, a pointer move changes nothing, so the retained reference is
    not acted upon. *)
Theorem dragging_reference :
  (forall es : list Event,
     isDragging (stateAfter es) = true -> selectedNote (stateAfter es) <> None)
  /\
  (forall s : State,
     step s MouseUp = (handleMouseUp s, []) /\
     step s MouseLeave = (handleMouseUp s, []) /\
     isDragging (handleMouseUp s) = false /\
     selectedNote (handleMouseUp s) = selectedNote s /\
     notes (handleMouseUp s) = notes s)
  /\
  (forall (x y : Q) (s : State),
     isDragging s = false -> handleMouseMove x y s = s).
Proof.
  split; [|split].
  - apply (stateAfter_ind
             (fun s => isDragging s = true -> selectedNote s <> None)).
    + discriminate.
    + exact step_dragging_reference.
  - intros s. repeat split.
  - intros x y s Hd. unfold handleMouseMove. now rewrite Hd.
Qed.

Lemma dragging_reference_witness :
  isDragging (stateAfter dragTrace) = true
  /\ selectedNote (stateAfter dragTrace) <> None
  /\ isDragging (stateAfter dropTrace) = false
  /\ handleMouseMove 260 10 (stateAfter dropTrace) = stateAfter dropTrace.
Proof.
  split; [reflexivity|]. split.
  - apply (proj1 dragging_reference dragTrace). reflexivity.
  - split; [reflexivity|].
    apply (proj2 (proj2 dragging_reference) 260%Q 10%Q (stateAfter dropTrace)).
    reflexivity.
Defined.

(** * Further properties of the code *)

(** ** Grid geometry: pixels and cells *)

Lemma Qfloor_ge (z : Z) (q : Q) : z <= Qfloor q <-> (inject_Z z <= q)%Q.
Proof.
  split; intros H.
  - apply Qle_trans with (inject_Z (Qfloor q)); [|apply Qfloor_le].
    now rewrite <- Zle_Qle.
  - rewrite <- (Qfloor_Z z). now apply Qfloor_resp_le.
Qed.

Lemma Qfloor_lt (z : Z) (q : Q) : Qfloor q < z <-> (q < inject_Z z)%Q.
Proof.
  split; intros H.
  - apply Qnot_le_lt. intros Hle. apply Qfloor_ge in Hle. lia.
  - apply Z.nle_gt. intros Hle. apply Qfloor_ge in Hle.
    apply (Qlt_irrefl q). now apply Qlt_le_trans with (inject_Z z).
Qed.

Lemma div_ge (z d : Z) (x : Q) :
  0 < d -> (inject_Z z <= x / inject_Z d)%Q <-> (inject_Z (z * d) <= x)%Q.
Proof.
  intros Hd.
  assert (Hd' : (0 < inject_Z d)%Q) by (now rewrite (Zlt_Qlt 0 d) in Hd).
  rewrite inject_Z_mult. split; intros H.
  - apply Qle_trans with (x / inject_Z d * inject_Z d)%Q.
    + apply Qmult_le_compat_r; [exact H|now apply Qlt_le_weak].
    + rewrite Qmult_comm, Qmult_div_r; [apply Qle_refl|].
      intros H0. rewrite H0 in Hd'. discriminate.
  - now apply Qle_shift_div_l.
Qed.

Lemma Math_floor_div_ge (z d : Z) (x : Q) :
  0 < d -> z <= Math_floor_div x d <-> (inject_Z (z * d) <= x)%Q.
Proof.
  intros Hd. unfold Math_floor_div. now rewrite Qfloor_ge, div_ge.
Qed.

Lemma Math_floor_div_lt (z d : Z) (x : Q) :
  0 < d -> Math_floor_div x d < z <-> (x < inject_Z (z * d))%Q.
Proof.
  intros Hd. split; intros H.
  - apply Qnot_le_lt. intros Hle. apply Math_floor_div_ge in Hle; [lia|exact Hd].
  - apply Z.nle_gt. intros Hle. apply Math_floor_div_ge in Hle; [|exact Hd].
    apply (Qlt_irrefl x). now apply Qlt_le_trans with (inject_Z (z * d)).
Qed.

(** X1. Every pixel of a cell maps back to the cell: for a cell index
    [c >= 0] whose right edge [(c + 1) * CELL_SIZE] is at most [2^53]
    (the range in which the quotient the code computes in binary64 has
    the floor of the exact quotient), the cell's left edge
    [c * CELL_SIZE] plus an offset in [0, CELL_SIZE) has
    [Math.floor(x / CELL_SIZE) = c], also for fractional offsets. *)
Theorem Math_floor_div_cell (c : Z) (dx : Q) :
  0 <= c ->
  (c + 1) * CELL_SIZE <= 2 ^ 53 ->
  (0 <= dx)%Q -> (dx < inject_Z CELL_SIZE)%Q ->
  Math_floor_div (inject_Z (c * CELL_SIZE) + dx) CELL_SIZE = c.
Proof.
  intros _ _ H0 H1.
  assert (Hd : 0 < CELL_SIZE) by reflexivity.
  assert (Hlo : c <= Math_floor_div (inject_Z (c * CELL_SIZE) + dx) CELL_SIZE).
  { apply Math_floor_div_ge; [exact Hd|].
    rewrite <- (Qplus_0_r (inject_Z (c * CELL_SIZE))) at 1.
    now apply Qplus_le_r. }
  assert (Hhi : Math_floor_div (inject_Z (c * CELL_SIZE) + dx) CELL_SIZE < c + 1).
  { apply Math_floor_div_lt; [exact Hd|].
    replace ((c + 1) * CELL_SIZE) with (c * CELL_SIZE + CELL_SIZE) by ring.
    rewrite inject_Z_plus. now apply Qplus_lt_r. }
  lia.
Qed.

Lemma Math_floor_div_cell_witness :
  0 <= 3 /\ (3 + 1) * CELL_SIZE <= 2 ^ 53 /\
  (0 <= 24 # 10)%Q /\ (24 # 10 < inject_Z CELL_SIZE)%Q /\
  Math_floor_div (inject_Z (3 * CELL_SIZE) + (24 # 10)) CELL_SIZE = 3.
Proof.
  split; [discriminate|]. split; [discriminate|].
  split; [discriminate|]. split; [reflexivity|].
  apply (Math_floor_div_cell 3 (24 # 10));
    [discriminate|discriminate|discriminate|reflexivity].
Defined.

(** ** The hit test and the drawn rectangle *)

Lemma hits_iff_inDrawnRect (px py : Q) (n : Note) :
  hits (Math_floor_div py CELL_SIZE) (Math_floor_div px CELL_SIZE) n = true
  <-> inDrawnRect px py n.
Proof.
  assert (Hd : 0 < CELL_SIZE) by reflexivity.
  rewrite hits_inSpan. unfold inSpan, inDrawnRect, NOTE_WIDTH, NOTE_HEIGHT.
  pose proof (Math_floor_div_ge (colIndex n) CELL_SIZE px Hd) as Hc1.
  pose proof (Math_floor_div_lt (colIndex n + duration n) CELL_SIZE px Hd) as Hc2.
  pose proof (Math_floor_div_ge (rowIndex n) CELL_SIZE py Hd) as Hr1.
  pose proof (Math_floor_div_lt (rowIndex n + 1) CELL_SIZE py Hd) as Hr2.
  replace (colIndex n * CELL_SIZE + CELL_SIZE * duration n)
    with ((colIndex n + duration n) * CELL_SIZE) by ring.
  replace (rowIndex n * CELL_SIZE + CELL_SIZE)
    with ((rowIndex n + 1) * CELL_SIZE) by ring.
  rewrite <- Hc1, <- Hc2, <- Hr1, <- Hr2. lia.
Qed.

(** X2. The hit test agrees with the drawing. The rectangle [drawNote]
    fills for a note is [colIndex * 25, rowIndex * 25] of size
    [25 * duration] by [25]; the hit test at the cell of a pixel finds a
    note exactly when the pixel lies inside the filled rectangle of some
    stored note, and the note it returns contains the pixel. *)
Theorem clickedNote_iff_drawn (ns : list Note) (px py : Q) :
  (forall n, In (FillRect (colIndex n * NOTE_WIDTH) (rowIndex n * NOTE_HEIGHT)
                          (NOTE_WIDTH * duration n) NOTE_HEIGHT)
                (drawNote n))
  /\ ((exists n, clickedNote ns (Math_floor_div py CELL_SIZE)
                             (Math_floor_div px CELL_SIZE) = Some n)
      <-> (exists n, In n ns /\ inDrawnRect px py n))
  /\ match clickedNote ns (Math_floor_div py CELL_SIZE) (Math_floor_div px CELL_SIZE) with
     | Some n => In n ns /\ inDrawnRect px py n
     | None => True
     end.
Proof.
  unfold clickedNote. split; [|split].
  - intros n. right. left. reflexivity.
  - split.
    + intros [n Hn]. apply find_some in Hn. destruct Hn as [Hin Hhit].
      exists n. split; [exact Hin|]. now apply hits_iff_inDrawnRect.
    + intros (n & Hin & Hrect).
      destruct (find _ ns) as [m|] eqn:Hm; [now exists m|].
      apply (find_none _ _ Hm) in Hin.
      apply hits_iff_inDrawnRect in Hrect. congruence.
  - destruct (find _ ns) as [n|] eqn:Hn; [|exact I].
    apply find_some in Hn. destruct Hn as [Hin Hhit].
    split; [exact Hin|]. now apply hits_iff_inDrawnRect.
Qed.

(** ** The pitch lattice, row by row *)

Lemma index_None {A : Type} (l : list A) (i : Z) :
  index l i = None <-> i < 0 \/ Z.of_nat (length l) <= i.
Proof.
  unfold index. destruct (Z.ltb_spec i 0) as [Hneg|Hpos].
  - split; [now left|reflexivity].
  - rewrite nth_error_None. lia.
Qed.

Lemma optStringEqb_eq (a b : Pitch) : optStringEqb a b = true <-> a = b.
Proof.
  destruct a as [x|], b as [y|]; simpl; try (split; congruence).
  rewrite String.eqb_eq. split; congruence.
Qed.

(** X3. Row by row, the lattice reads B, A#, ..., C within an octave and
    the octaves 1, 2, ..., 5 from the top row down: for every row in
    [0, 60), [allNotes[row]] is [NOTES[11 - row mod 12]] followed by the
    digit [row / 12 + 1]; and [allNotes[row]] is [undefined] exactly for the
    rows below 0 or from 60 on. *)
Theorem allNotes_row (row : Z) :
  (0 <= row < Z.of_nat (length allNotes) ->
   index allNotes row = Some (latticePitch row))
  /\ (index allNotes row = None <-> row < 0 \/ 60 <= row).
Proof.
  split.
  - intros Hrow.
    assert (Hall : forallb (fun k => optStringEqb (index allNotes (Z.of_nat k))
                                       (Some (latticePitch (Z.of_nat k))))
                           (seq 0 (length allNotes)) = true)
      by (vm_compute; reflexivity).
    rewrite forallb_forall in Hall.
    specialize (Hall (Z.to_nat row)).
    rewrite Z2Nat.id in Hall by lia.
    apply optStringEqb_eq, Hall, in_seq. lia.
  - rewrite index_None. reflexivity.
Qed.

Lemma allNotes_row_witness :
  0 <= 47 < Z.of_nat (length allNotes) /\
  index allNotes 47 = Some "C4"%string.
Proof.
  split; [vm_compute; intuition discriminate|].
  apply (proj1 (allNotes_row 47)). vm_compute. intuition discriminate.
Defined.

Lemma allNotes_NoDup : NoDup allNotes.
Proof.
  replace allNotes with (nodup string_dec allNotes) by (vm_compute; reflexivity).
  apply NoDup_nodup.
Qed.

(** X4. The 60 pitch names of the lattice are pairwise distinct: two rows
    that carry the same pitch are the same row. *)
Theorem allNotes_row_inj (r1 r2 : Z) (p : string) :
  index allNotes r1 = Some p -> index allNotes r2 = Some p -> r1 = r2.
Proof.
  unfold index.
  destruct (Z.ltb_spec r1 0) as [|H1]; [discriminate|].
  destruct (Z.ltb_spec r2 0) as [|H2]; [discriminate|].
  intros Hp1 Hp2.
  assert (Hlt : (Z.to_nat r1 < length allNotes)%nat)
    by (apply nth_error_Some; congruence).
  assert (Heq : Z.to_nat r1 = Z.to_nat r2).
  { apply (proj1 (NoDup_nth_error allNotes) allNotes_NoDup _ _ Hlt). congruence. }
  lia.
Qed.

Lemma allNotes_row_inj_witness :
  index allNotes 47 = Some "C4"%string /\ 47 = 47.
Proof.
  split; [reflexivity|].
  apply (allNotes_row_inj 47 47 "C4"%string); reflexivity.
Defined.

(** ** The grid layer *)

Lemma loopRange_In (n z : Z) : In z (loopRange n) <-> 0 <= z < n.
Proof.
  unfold loopRange. rewrite in_map_iff. split.
  - intros (k & <- & Hk). apply in_seq in Hk. lia.
  - intros Hz. exists (Z.to_nat z). split; [lia|]. apply in_seq. lia.
Qed.

Lemma loopRange_length (n : Z) : length (loopRange n) = Z.to_nat n.
Proof. unfold loopRange. now rewrite length_map, length_seq. Qed.

Lemma filter_isRect_cells (row : Z) (cols : list Z) :
  filter isRect (map (fun col => Rect (col * CELL_SIZE) (row * CELL_SIZE)
                                      CELL_SIZE CELL_SIZE) cols)
  = map (fun col => Rect (col * CELL_SIZE) (row * CELL_SIZE) CELL_SIZE CELL_SIZE) cols.
Proof.
  induction cols as [|c cols IH]; simpl; [reflexivity|]. now rewrite IH.
Qed.

Lemma length_flat_map_const {A B : Type} (f : A -> list B) (k : nat) (l : list A) :
  (forall a, length (f a) = k) -> length (flat_map f l) = (length l * k)%nat.
Proof.
  intros Hf. induction l as [|a l IH]; simpl; [reflexivity|].
  now rewrite length_app, Hf, IH.
Qed.

(** X5. [drawGrid] outlines one square per cell and nothing else: it
    issues a [rect] call for [(x, y, w, h)] exactly when
    [(x, y) = (col * 25, row * 25)] for a cell with
    [0 <= row < numberOfRows], [0 <= col < numberOfColumns] and
    [w = h = 25]; the number of [rect] calls is
    [numberOfRows * numberOfColumns] (none for a non-positive count); and
    for the grid the component paints, every square lies inside the
    canvas. *)
Theorem drawGrid_cells (cw ch rows cols : Z) :
  (forall x y w h,
     In (Rect x y w h) (drawGrid cw ch rows cols) <->
     exists row col, 0 <= row < rows /\ 0 <= col < cols /\
                     x = col * CELL_SIZE /\ y = row * CELL_SIZE /\
                     w = CELL_SIZE /\ h = CELL_SIZE)
  /\ length (filter isRect (drawGrid cw ch rows cols))
     = (Z.to_nat rows * Z.to_nat cols)%nat
  /\ (forall s x y w h,
        In (Rect x y w h) (gridLayer s) ->
        0 <= x /\ x + w <= numberOfColumns s * CELL_SIZE /\
        0 <= y /\ y + h <= Z.of_nat (length allNotes) * CELL_SIZE).
Proof.
  assert (Hin : forall cw ch rows cols x y w h,
             In (Rect x y w h) (drawGrid cw ch rows cols) <->
             exists row col, 0 <= row < rows /\ 0 <= col < cols /\
                             x = col * CELL_SIZE /\ y = row * CELL_SIZE /\
                             w = CELL_SIZE /\ h = CELL_SIZE).
  { clear. intros cw ch rows cols x y w h. unfold drawGrid.
    rewrite !in_app_iff, in_flat_map. split.
    - intros [Hhead|[(row & Hrow & Hcell)|Htail]].
      + destruct Hhead as [H|[H|[]]]; discriminate H.
      + apply in_map_iff in Hcell. destruct Hcell as (col & Heq & Hcol).
        apply loopRange_In in Hrow, Hcol. injection Heq as <- <- <- <-.
        exists row, col. repeat split; lia.
      + destruct Htail as [H|[H|[]]]; discriminate H.
    - intros (row & col & Hrow & Hcol & -> & -> & -> & ->).
      right. left. exists row. split; [now apply loopRange_In|].
      apply in_map_iff. exists col. split; [reflexivity|now apply loopRange_In]. }
  split; [apply Hin|]. split.
  - unfold drawGrid. rewrite !filter_app. simpl. rewrite app_nil_r.
    assert (Hflat : forall rs,
               filter isRect
                 (flat_map (fun row =>
                    map (fun col => Rect (col * CELL_SIZE) (row * CELL_SIZE)
                                         CELL_SIZE CELL_SIZE)
                        (loopRange cols)) rs)
               = flat_map (fun row =>
                    map (fun col => Rect (col * CELL_SIZE) (row * CELL_SIZE)
                                         CELL_SIZE CELL_SIZE)
                        (loopRange cols)) rs).
    { induction rs as [|r rs IH]; simpl; [reflexivity|].
      now rewrite filter_app, filter_isRect_cells, IH. }
    rewrite Hflat.
    rewrite (length_flat_map_const _ (Z.to_nat cols)).
    + now rewrite loopRange_length.
    + intros row. now rewrite length_map, loopRange_length.
  - intros s x y w h Hrect. unfold gridLayer in Hrect.
    apply Hin in Hrect.
    destruct Hrect as (row & col & Hrow & Hcol & -> & -> & -> & ->).
    unfold CELL_SIZE. lia.
Qed.

Lemma drawGrid_cells_witness :
  0 <= 0 /\ 0 + 25 <= numberOfColumns initialState * CELL_SIZE /\
  0 <= 0 /\ 0 + 25 <= Z.of_nat (length allNotes) * CELL_SIZE.
Proof.
  apply (proj2 (proj2 (drawGrid_cells 0 0 0 0)) initialState 0 0 25 25).
  unfold gridLayer. apply (proj1 (drawGrid_cells _ _ _ _)).
  exists 0, 0. vm_compute. intuition discriminate.
Defined.

(** ** Invariants of the editing session *)

Lemma run_cons_calls (s : State) (e : Event) (es : list Event) :
  snd (run s (e :: es)) = snd (step s e) ++ snd (run (fst (step s e)) es).
Proof.
  simpl. destruct (step s e) as [s1 c1]. simpl.
  destruct (run s1 es) as [s2 c2]. reflexivity.
Qed.

(** Splits a goal about one handler step into the branches of the
    handler. *)
Ltac handler_cases :=
  unfold step, handleCanvasClick, handleMouseDown, handleMouseMove,
    handleMouseUp, playRecorded, stopPlayback, playNote, stopNote;
  repeat match goal with
    | |- context [match clickedNote ?a ?b ?c with _ => _ end] =>
        destruct (clickedNote a b c) eqn:?
    | |- context [match selectedNote ?s with _ => _ end] =>
        destruct (selectedNote s) eqn:?
    | |- context [if ?b then _ else _] => destruct b eqn:?
    | cb : Callback |- _ => destruct cb
    end;
  simpl.

(** *** The column count *)

Lemma step_columns (s : State) (e : Event) :
  (numberOfColumns (fst (step s e)) = numberOfColumns s
   /\ length (notes (fst (step s e))) = length (notes s))
  \/ (numberOfColumns (fst (step s e)) = numberOfColumns s + 50
      /\ length (notes (fst (step s e))) = S (length (notes s)))
  \/ (numberOfColumns (fst (step s e)) = numberOfColumns s
      /\ length (notes (fst (step s e))) = S (length (notes s))).
Proof.
  destruct e; handler_cases;
    rewrite ?length_map, ?length_app, ?length_map; simpl;
    try (left; split; reflexivity);
    try (right; left; split; [reflexivity|lia]);
    try (right; right; split; [reflexivity|lia]).
Qed.

(** X6. The column count never shrinks: a handler leaves it as it is or
    adds 50; after every session it is [64 + 50 * k] for some [k] that
    is at most the number of stored notes (each growth comes with a newly
    created note). *)
Theorem numberOfColumns_grows :
  (forall s e,
     numberOfColumns (fst (step s e)) = numberOfColumns s \/
     numberOfColumns (fst (step s e)) = numberOfColumns s + 50)
  /\ (forall es, exists k : nat,
        numberOfColumns (stateAfter es) = 64 + 50 * Z.of_nat k
        /\ (k <= length (notes (stateAfter es)))%nat).
Proof.
  split.
  - intros s e. destruct (step_columns s e) as [[H _]|[[H _]|[H _]]]; auto.
  - apply (stateAfter_ind
             (fun s => exists k : nat,
                  numberOfColumns s = 64 + 50 * Z.of_nat k
                  /\ (k <= length (notes s))%nat)).
    + exists 0%nat. split; [reflexivity|simpl; lia].
    + intros s e (k & Hk & Hle).
      destruct (step_columns s e) as [[H1 H2]|[[H1 H2]|[H1 H2]]].
      * exists k. rewrite H1, H2. split; [exact Hk|exact Hle].
      * exists (S k). rewrite H1, H2. split; lia.
      * exists k. rewrite H1, H2. split; [exact Hk|lia].
Qed.

(** X7. A click that creates a note grows the grid exactly when the
    clicked column is the last visible one or beyond
    ([col >= numberOfColumns - 1]), and then by 50; hence after a creating
    click inside the canvas ([col < numberOfColumns]) there is at least
    one free column to the right of the new note. *)
Theorem handleCanvasClick_growth (x y : Q) (dateNow : Z) (s : State) :
  clickedNote (notes s) (Math_floor_div y CELL_SIZE) (Math_floor_div x CELL_SIZE)
    = None ->
  isDragging s = false ->
  let col := Math_floor_div x CELL_SIZE in
  let s' := fst (handleCanvasClick x y dateNow s) in
  (numberOfColumns s - 1 <= col -> numberOfColumns s' = numberOfColumns s + 50)
  /\ (col < numberOfColumns s - 1 -> numberOfColumns s' = numberOfColumns s)
  /\ (col < numberOfColumns s -> col + 1 < numberOfColumns s').
Proof.
  intros Hmiss Hdrag. cbv zeta. unfold handleCanvasClick.
  rewrite Hmiss, Hdrag. unfold playNote. simpl.
  destruct (Z.geb_spec (Math_floor_div x CELL_SIZE) (numberOfColumns s - 1));
    destruct (synth s); simpl; repeat split; intros; lia.
Qed.

Lemma handleCanvasClick_growth_witness :
  numberOfColumns (fst (handleCanvasClick 1580 10 1000 initialState)) = 64 + 50
  /\ 63 + 1 < numberOfColumns (fst (handleCanvasClick 1580 10 1000 initialState)).
Proof.
  pose proof (handleCanvasClick_growth 1580 10 1000 initialState eq_refl eq_refl)
    as (Hgrow & _ & Hroom).
  split.
  - apply Hgrow. vm_compute. discriminate.
  - apply Hroom. reflexivity.
Defined.

(** *** The shape of stored notes *)

Lemma step_note_shape (s : State) (e : Event) :
  Forall (fun n => duration n = 1 /\ note n = index allNotes (rowIndex n)) (notes s) ->
  Forall (fun n => duration n = 1 /\ note n = index allNotes (rowIndex n))
         (notes (fst (step s e))).
Proof.
  intros Hs.
  destruct e; handler_cases; try exact Hs;
    repeat (apply Forall_app; split);
    try (apply Forall_map; eapply Forall_impl; [|exact Hs];
         intros ? [? ?]; simpl; try destruct (String.eqb _ _); simpl;
         split; (assumption || reflexivity));
    try (constructor; [split; reflexivity|constructor]).
Qed.

Lemma stateAfter_note_shape (es : list Event) :
  Forall (fun n => duration n = 1 /\ note n = index allNotes (rowIndex n))
         (notes (stateAfter es)).
Proof.
  apply (stateAfter_ind
           (fun s => Forall (fun n => duration n = 1
                                      /\ note n = index allNotes (rowIndex n))
                            (notes s))).
  - constructor.
  - exact step_note_shape.
Qed.

(** X8. Every stored note is one cell long: after every session each
    note has [duration = 1] (no handler changes a duration), so the hit
    test accepts it at exactly one cell, [(rowIndex, colIndex)]. *)
Theorem stored_note_one_cell (es : list Event) (n : Note) :
  In n (notes (stateAfter es)) ->
  duration n = 1
  /\ forall row col, hits row col n = true <-> row = rowIndex n /\ col = colIndex n.
Proof.
  intros Hin.
  pose proof (stateAfter_note_shape es) as Hall.
  rewrite Forall_forall in Hall. destruct (Hall n Hin) as [Hd _].
  split; [exact Hd|]. intros row col.
  rewrite hits_inSpan. unfold inSpan. rewrite Hd. lia.
Qed.

Lemma stored_note_one_cell_witness :
  In placedNote (notes (stateAfter placeTrace)) /\ duration placedNote = 1.
Proof.
  split; [left; reflexivity|].
  apply (stored_note_one_cell placeTrace placedNote). left. reflexivity.
Defined.

(** X9. The pitch of a stored note is always the lattice entry of its
    row: after every session each note has [note = allNotes[rowIndex]]
    (creation and every drag step set the two together), which is a pitch
    name when the row is in [0, 60) and [undefined] otherwise. *)
Theorem stored_note_pitch (es : list Event) (n : Note) :
  In n (notes (stateAfter es)) ->
  note n = index allNotes (rowIndex n)
  /\ (note n = None <-> rowIndex n < 0 \/ 60 <= rowIndex n).
Proof.
  intros Hin.
  pose proof (stateAfter_note_shape es) as Hall.
  rewrite Forall_forall in Hall. destruct (Hall n Hin) as [_ Hp].
  split; [exact Hp|]. rewrite Hp. apply index_None.
Qed.

Lemma stored_note_pitch_witness :
  In (mkNote "note-1000" (Some "B1"%string) 3 1 0 10 true) (notes (stateAfter dropTrace))
  /\ Some "B1"%string = index allNotes 0.
Proof.
  split; [left; reflexivity|].
  apply (stored_note_pitch dropTrace
           (mkNote "note-1000" (Some "B1"%string) 3 1 0 10 true)).
  left. reflexivity.
Defined.

(** *** The selection *)

Lemma in_filter_id (c : Note) (ns : list Note) :
  In c ns -> (1 <= length (filter (fun n => String.eqb (id n) (id c)) ns))%nat.
Proof.
  intros Hin.
  assert (Hc : In c (filter (fun n => String.eqb (id n) (id c)) ns))
    by (apply filter_In; split; [exact Hin|apply String.eqb_refl]).
  destruct (filter _ ns); [destruct Hc|simpl; lia].
Qed.

Lemma clickedNote_In (ns : list Note) (row col : Z) (c : Note) :
  clickedNote ns row col = Some c -> In c ns.
Proof. intros H. now apply find_some in H. Qed.

Lemma step_selection_reference (s : State) (e : Event) :
  ((selectedNote s = None <-> notes s = [])
   /\ forall c, selectedNote s = Some c -> In (id c) (map id (notes s))) ->
  (selectedNote (fst (step s e)) = None <-> notes (fst (step s e)) = [])
  /\ forall c, selectedNote (fst (step s e)) = Some c ->
               In (id c) (map id (notes (fst (step s e)))).
Proof.
  intros [Hnone Hsome].
  destruct e; handler_cases;
    try match goal with
      | H : selectedNote s = _ |- _ => rewrite ?H
      end;
    try (split; assumption);
    try match goal with
      | H : clickedNote _ _ _ = Some _ |- _ => apply clickedNote_In in H
      end.
  - (* click on a note *)
    split.
    + split; [discriminate|]. intros Hnil. apply map_eq_nil in Hnil.
      rewrite Hnil in *. contradiction.
    + intros c [= <-]. rewrite map_map. simpl. now apply in_map.
  - (* click creating a note, growing the grid *)
    split.
    + split; [discriminate|]. intros Hnil. now apply app_eq_nil in Hnil as [_ ?].
    + intros c [= <-]. rewrite map_app, in_app_iff. right. now left.
  - split.
    + split; [discriminate|]. intros Hnil. now apply app_eq_nil in Hnil as [_ ?].
    + intros c [= <-]. rewrite map_app, in_app_iff. right. now left.
  - split.
    + split; [discriminate|]. intros Hnil. now apply app_eq_nil in Hnil as [_ ?].
    + intros c [= <-]. rewrite map_app, in_app_iff. right. now left.
  - split.
    + split; [discriminate|]. intros Hnil. now apply app_eq_nil in Hnil as [_ ?].
    + intros c [= <-]. rewrite map_app, in_app_iff. right. now left.
  - (* press on a note *)
    split.
    + split; [discriminate|]. intros Hnil. rewrite Hnil in *. contradiction.
    + intros c [= <-]. now apply in_map.
  - (* drag step *)
    split.
    + split; [discriminate|]. intros Hnil. apply map_eq_nil in Hnil.
      apply Hnone in Hnil. discriminate Hnil.
    + intros c Hc. rewrite ids_move. now apply Hsome.
Qed.

(** X10. The selected-note reference follows the store: after every
    session it is empty exactly when the store is empty, and otherwise its
    id is the id of a stored note (notes are never removed, and clicks
    and presses set the reference to a stored or just created note). *)
Theorem selectedNote_names_stored_note (es : list Event) :
  (selectedNote (stateAfter es) = None <-> notes (stateAfter es) = [])
  /\ forall c, selectedNote (stateAfter es) = Some c ->
               In (id c) (map id (notes (stateAfter es))).
Proof.
  apply (stateAfter_ind
           (fun s => (selectedNote s = None <-> notes s = [])
                     /\ forall c, selectedNote s = Some c ->
                                  In (id c) (map id (notes s)))).
  - split; [split; reflexivity|discriminate].
  - exact step_selection_reference.
Qed.

Lemma selectedNote_names_stored_note_witness :
  selectedNote (stateAfter dropTrace) = Some placedNote
  /\ In (id placedNote) (map id (notes (stateAfter dropTrace))).
Proof.
  split; [reflexivity|].
  apply (proj2 (selectedNote_names_stored_note dropTrace) placedNote).
  reflexivity.
Defined.

Lemma step_some_selected (s : State) (e : Event) :
  (notes s = [] \/ (1 <= selectedCount (notes s))%nat) ->
  notes (fst (step s e)) = [] \/ (1 <= selectedCount (notes (fst (step s e))))%nat.
Proof.
  intros Hs.
  destruct e; handler_cases; try exact Hs;
    try match goal with
      | H : clickedNote _ _ _ = Some _ |- _ => apply clickedNote_In in H
      end;
    try (right; rewrite selectedCount_app, selectedCount_deselect;
         unfold selectedCount; simpl; lia).
  - right. rewrite selectedCount_select. now apply in_filter_id.
  - destruct Hs as [Hnil|Hsel].
    + left. now rewrite Hnil.
    + right. now rewrite selectedCount_move.
Qed.

(** X11. Once a note exists, some note is flagged selected: after every
    session the store is empty or at least one note has
    [selected = true]; no handler clears the flags without setting one. *)
Theorem selection_never_empties (es : list Event) :
  notes (stateAfter es) <> [] ->
  (1 <= selectedCount (notes (stateAfter es)))%nat.
Proof.
  intros Hne.
  assert (H : notes (stateAfter es) = []
              \/ (1 <= selectedCount (notes (stateAfter es)))%nat).
  { apply (stateAfter_ind
             (fun s => notes s = [] \/ (1 <= selectedCount (notes s))%nat)).
    - now left.
    - exact step_some_selected. }
  destruct H as [Hnil|Hsel]; [contradiction|exact Hsel].
Qed.

Lemma selection_never_empties_witness :
  notes (stateAfter dropTrace) <> []
  /\ (1 <= selectedCount (notes (stateAfter dropTrace)))%nat.
Proof.
  split; [discriminate|].
  apply (selection_never_empties dropTrace). discriminate.
Defined.

(** *** The store only grows *)

Lemma Forall2_keeps_refl (ns : list Note) : Forall2 keeps ns ns.
Proof.
  induction ns; constructor; [repeat split|assumption].
Qed.

Lemma Forall2_keeps_trans (l1 l2 l3 : list Note) :
  Forall2 keeps l1 l2 -> Forall2 keeps l2 l3 -> Forall2 keeps l1 l3.
Proof.
  intros H12. revert l3. induction H12 as [|a b l1 l2 Hab _ IH]; intros l3 H23.
  - inversion H23. constructor.
  - inversion H23 as [|b' c l2' l3' Hbc H23']; subst.
    constructor; [|now apply IH].
    destruct Hab as (? & ? & ?), Hbc as (? & ? & ?). repeat split; congruence.
Qed.

(** One handler step keeps every stored note in place, with its id,
    start and duration, and appends at most one note, only on a click. *)
Lemma step_store (s : State) (e : Event) :
  exists kept added,
    notes (fst (step s e)) = kept ++ added
    /\ Forall2 keeps (notes s) kept
    /\ (length added <= clickCount [e])%nat.
Proof.
  assert (Hmap : forall f : Note -> Note,
             (forall n, keeps n (f n)) -> Forall2 keeps (notes s) (map f (notes s)))
    by (intros f Hf; now apply Forall2_map_self).
  destruct e; handler_cases;
    try (exists (notes s), []; rewrite app_nil_r;
         split; [reflexivity|split; [apply Forall2_keeps_refl|simpl; lia]]);
    try (eexists _, [_]; split; [reflexivity|split;
           [apply Hmap; intros; repeat split|unfold clickCount; simpl; lia]]).
  - eexists _, []. rewrite app_nil_r. split; [reflexivity|].
    split; [apply Hmap; intros; repeat split|unfold clickCount; simpl; lia].
  - eexists _, []. rewrite app_nil_r. split; [reflexivity|].
    split; [|unfold clickCount; simpl; lia].
    apply Hmap. intros n0. destruct (String.eqb _ _); repeat split.
Qed.

Lemma clickCount_cons (e : Event) (es : list Event) :
  clickCount (e :: es) = (clickCount [e] + clickCount es)%nat.
Proof. unfold clickCount. destruct e; reflexivity. Qed.

(** X12. Notes are never deleted or reordered, and keep their id, start
    and duration for good: after any sequence of events the store is the
    old store, note by note with the same id, start and duration in the
    same order, followed by the notes added since, which are at most as
    many as the clicks of the sequence. *)
Theorem store_only_grows (es : list Event) (s : State) :
  exists kept added,
    notes (fst (run s es)) = kept ++ added
    /\ Forall2 keeps (notes s) kept
    /\ (length added <= clickCount es)%nat.
Proof.
  revert s. induction es as [|e es IH]; intros s.
  - exists (notes s), []. rewrite app_nil_r.
    split; [reflexivity|split; [apply Forall2_keeps_refl|simpl; lia]].
  - rewrite run_cons, clickCount_cons.
    destruct (step_store s e) as (k1 & a1 & Heq1 & Hk1 & Hlen1).
    destruct (IH (fst (step s e))) as (k2 & a2 & Heq2 & Hk2 & Hlen2).
    rewrite Heq1 in Hk2.
    apply Forall2_app_inv_l in Hk2.
    destruct Hk2 as (k21 & k22 & Hk21 & Hk22 & ->).
    exists k21, (k22 ++ a2). split; [|split].
    + now rewrite Heq2, app_assoc.
    + now apply Forall2_keeps_trans with k1.
    + rewrite length_app. apply Forall2_length in Hk22. lia.
Qed.

(** ** A whole drag gesture *)

(** X13. Dragging a note creates no ghost note. When a press lands on a
    note [c] of positive duration, the press, a move to any pixel, the
    release and the click reported at the release point leave the number
    of stored notes unchanged, make no engine call, end outside the
    dragging state, and leave a note with the id of [c] at the cell of the
    release point. *)
Theorem dragGesture_no_new_note (x y x' y' : Q) (dateNow : Z) (s : State) (c : Note) :
  clickedNote (notes s) (Math_floor_div y CELL_SIZE) (Math_floor_div x CELL_SIZE)
    = Some c ->
  0 < duration c ->
  let s' := fst (run s (dragGesture x y x' y' dateNow)) in
  length (notes s') = length (notes s)
  /\ snd (run s (dragGesture x y x' y' dateNow)) = []
  /\ isDragging s' = false
  /\ exists n', In n' (notes s') /\ id n' = id c
                /\ rowIndex n' = Math_floor_div y' CELL_SIZE
                /\ colIndex n' = Math_floor_div x' CELL_SIZE.
Proof.
  intros Hhit Hdur. cbv zeta. unfold dragGesture.
  rewrite !run_cons, !run_cons_calls.
  set (row' := Math_floor_div y' CELL_SIZE).
  set (col' := Math_floor_div x' CELL_SIZE).
  (* the press *)
  assert (H1 : fst (step s (MouseDown x y))
               = setIsDragging true (setSelectedNote (Some c) s))
    by (simpl; unfold handleMouseDown; now rewrite Hhit).
  rewrite H1. clear H1.
  set (s1 := setIsDragging true (setSelectedNote (Some c) s)).
  (* the move *)
  set (moved := fun n : Note =>
                  if String.eqb (id n) (id c)
                  then withPosition col' row' (index allNotes row') n else n).
  assert (H2 : fst (step s1 (MouseMove x' y')) = setNotes (map moved) s1)
    by reflexivity.
  rewrite H2. clear H2.
  set (s2 := setNotes (map moved) s1).
  (* the release *)
  change (fst (step s2 MouseUp)) with (setIsDragging false s2).
  set (s3 := setIsDragging false s2).
  (* the click finds a note at the release cell *)
  assert (Hc : In c (notes s)) by (now apply clickedNote_In in Hhit).
  assert (Hmoved : In (moved c) (notes s3))
    by (simpl; now apply in_map).
  assert (Hspan : hits row' col' (moved c) = true).
  { unfold moved. rewrite String.eqb_refl. apply hits_inSpan.
    unfold inSpan. simpl. lia. }
  destruct (clickedNote (notes s3) row' col') as [c2|] eqn:Hc2.
  2: { unfold clickedNote in Hc2. apply (find_none _ _ Hc2) in Hmoved. congruence. }
  assert (H4 : step s3 (Click x' y' dateNow)
               = (setNotes (map (fun n => withSelected (String.eqb (id n) (id c2)) n))
                           (setSelectedNote (Some c2) s3), [])).
  { simpl. unfold handleCanvasClick. fold row' col'. now rewrite Hc2. }
  rewrite H4. simpl. rewrite !length_map. repeat split.
  exists (withSelected (String.eqb (id (moved c)) (id c2)) (moved c)).
  split.
  - apply in_map_iff. exists (moved c). split; [reflexivity|].
    now apply in_map.
  - unfold moved. rewrite String.eqb_refl. simpl. repeat split.
Qed.

Lemma dragGesture_no_new_note_witness :
  clickedNote (notes (stateAfter placeTrace))
              (Math_floor_div 10 CELL_SIZE) (Math_floor_div 80 CELL_SIZE)
    = Some placedNote
  /\ 0 < duration placedNote
  /\ length (notes (fst (run (stateAfter placeTrace) (dragGesture 80 10 260 35 2000))))
     = length (notes (stateAfter placeTrace)).
Proof.
  split; [reflexivity|]. split; [reflexivity|].
  apply (dragGesture_no_new_note 80 10 260 35 2000 (stateAfter placeTrace) placedNote);
    reflexivity.
Defined.

(** ** Piano keys and sounding pitches *)

Lemma filter_not_pitch_id (p : Pitch) (l : list Pitch) :
  ~ In p l -> filter (fun n => negb (optStringEqb n p)) l = l.
Proof.
  induction l as [|q l IH]; simpl; intros Hnot; [reflexivity|].
  destruct (optStringEqb q p) eqn:Hq.
  - apply optStringEqb_eq in Hq. subst q. exfalso. apply Hnot. now left.
  - simpl. rewrite IH; [reflexivity|]. intros Hin. apply Hnot. now right.
Qed.

(** X14. Releasing a piano key removes every occurrence of its pitch
    from the sounding pitches and keeps all other pitches: with a synth,
    after [stopNote p] the pitch [p] is not active, and any other pitch is
    active exactly if it was before; in particular pressing a key whose
    pitch was not active and releasing it restores the state, with one
    attack and one release issued. *)
Theorem stopNote_clears_pitch (p : Pitch) (s : State) :
  synth s = true ->
  ~ In p (activeNotes (fst (stopNote p s)))
  /\ (forall q, q <> p ->
        (In q (activeNotes (fst (stopNote p s))) <-> In q (activeNotes s)))
  /\ (~ In p (activeNotes s) ->
      fst (stopNote p (fst (playNote p s))) = s
      /\ snd (playNote p s) ++ snd (stopNote p (fst (playNote p s)))
         = [TriggerAttack p; TriggerRelease p]).
Proof.
  intros Hs. unfold stopNote, playNote. rewrite Hs. simpl. rewrite Hs. simpl.
  split; [|split].
  - rewrite filter_In. intros [_ Hneq].
    assert (Heq : optStringEqb p p = true) by now apply optStringEqb_eq.
    rewrite Heq in Hneq. discriminate.
  - intros q Hq. rewrite filter_In. split; [now intros [? _]|].
    intros Hin. split; [exact Hin|].
    destruct (optStringEqb q p) eqn:Heq; [|reflexivity].
    apply optStringEqb_eq in Heq. contradiction.
  - intros Hnot. split; [|reflexivity].
    unfold setActiveNotes. simpl.
    rewrite filter_app, filter_not_pitch_id by exact Hnot. simpl.
    assert (Heq : optStringEqb p p = true) by now apply optStringEqb_eq.
    rewrite Heq. simpl. rewrite app_nil_r.
    destruct s. simpl in *. now subst.
Qed.

Lemma stopNote_clears_pitch_witness :
  synth (stateAfter [SynthCreated]) = true
  /\ ~ In (Some "C4"%string)
          (activeNotes (fst (stopNote (Some "C4"%string) (stateAfter [SynthCreated]))))
  /\ fst (stopNote (Some "C4"%string)
                   (fst (playNote (Some "C4"%string) (stateAfter [SynthCreated]))))
     = stateAfter [SynthCreated].
Proof.
  pose proof (stopNote_clears_pitch (Some "C4"%string) (stateAfter [SynthCreated])
                eq_refl) as (Hclear & _ & Hround).
  split; [reflexivity|]. split; [exact Hclear|].
  apply Hround. simpl. intros [].
Defined.

(** ** Play and stop *)

(** X15. Stopping undoes starting, as far as the component's state goes:
    from a non-playing state with a synth, [playRecorded] followed by
    [stopPlayback] (the play/stop button pressed twice) returns the state
    it started from, the stop issuing transport stop, transport cancel and
    releaseAll; and [stopPlayback] on a state that is not playing leaves
    the state as it is. *)
Theorem stopPlayback_undoes_playRecorded (now now' : Q) (s : State) :
  isPlaying s = false ->
  fst (stopPlayback s) = s
  /\ (synth s = true ->
      fst (stopPlayback (fst (playRecorded now s))) = s
      /\ snd (stopPlayback (fst (playRecorded now s)))
         = [TransportStop; TransportCancel; ReleaseAll]
      /\ fst (run s [PlayStopButton now; PlayStopButton now']) = s).
Proof.
  intros Hp. split.
  - destruct s. simpl in *. now subst.
  - intros Hs. rewrite !run_cons. simpl.
    unfold playRecorded. rewrite Hp, Hs. simpl. rewrite Hs.
    repeat split; destruct s; simpl in *; now subst.
Qed.

Lemma stopPlayback_undoes_playRecorded_witness :
  isPlaying c4State = false /\ synth c4State = true
  /\ fst (run c4State [PlayStopButton 0; PlayStopButton 3]) = c4State.
Proof.
  split; [reflexivity|]. split; [reflexivity|].
  apply (proj2 (stopPlayback_undoes_playRecorded 0 3 c4State eq_refl) eq_refl).
Defined.

(** X16. The completion callback is scheduled at the end of the last
    note. For a non-empty store (with a synth, not playing),
    [playRecorded] schedules exactly one callback, at [m * 0.25] seconds
    of transport time, where [m] is the largest [start + duration] of the
    store: no note ends later, and some note ends exactly there. *)
Theorem playRecorded_completion_time (now : Q) (s : State) :
  synth s = true ->
  isPlaying s = false ->
  notes s <> [] ->
  exists m : Z,
    filter isSchedule (snd (playRecorded now s))
    = [TransportSchedule SetIsPlayingFalse (Finite (inject_Z m * secondsPerCell))]
    /\ (forall n, In n (notes s) -> start n + duration n <= m)
    /\ (exists n, In n (notes s) /\ m = start n + duration n).
Proof.
  intros Hs Hp Hne. unfold playRecorded. rewrite Hs, Hp.
  cbn [andb negb snd]. fold (attackReleaseOf now).
  assert (Hmax : forall l z,
             (z <= fold_left Z.max l z
              /\ Forall (fun a => a <= fold_left Z.max l z) l)
             /\ (fold_left Z.max l z = z \/ In (fold_left Z.max l z) l)).
  { clear. induction l as [|a l IH]; intros z; simpl.
    - repeat split; [lia|constructor|now left].
    - destruct (IH (Z.max z a)) as [[Hle Hall] Hin]. repeat split.
      + lia.
      + constructor; [lia|exact Hall].
      + destruct Hin as [Heq|Hin]; [|now right; right].
        rewrite Heq. destruct (Z.max_spec z a) as [[_ ->]|[_ ->]];
          [right; now left|now left]. }
  destruct (notes s) as [|n ns] eqn:Hnotes; [contradiction|].
  exists (fold_left Z.max (map (fun n0 => start n0 + duration n0) ns)
                    (start n + duration n)).
  destruct (Hmax (map (fun n0 => start n0 + duration n0) ns) (start n + duration n))
    as [[Hle Hall] Hin].
  split; [|split].
  - cbn [app filter isSchedule].
    rewrite filter_app, filter_isSchedule_map. reflexivity.
  - intros n0 [<-|Hn0]; [exact Hle|].
    rewrite Forall_forall in Hall. apply Hall.
    apply in_map_iff. now exists n0.
  - destruct Hin as [Heq|Hin].
    + exists n. split; [now left|exact Heq].
    + apply in_map_iff in Hin. destruct Hin as (n0 & Heq & Hn0).
      exists n0. split; [now right|now rewrite Heq].
Qed.

Lemma playRecorded_completion_time_witness :
  exists m : Z,
    filter isSchedule (snd (playRecorded 0 c4State))
    = [TransportSchedule SetIsPlayingFalse (Finite (inject_Z m * secondsPerCell))]
    /\ (forall n, In n (notes c4State) -> start n + duration n <= m)
    /\ (exists n, In n (notes c4State) /\ m = start n + duration n).
Proof.
  apply (playRecorded_completion_time 0 c4State); [reflexivity|reflexivity|].
  discriminate.
Defined.

(** ** Audio calls of a session *)

Lemma step_synth_stays (s : State) (e : Event) :
  synth s = true -> synth (fst (step s e)) = true.
Proof.
  intros Hs. destruct e; handler_cases;
    try assumption; try reflexivity; congruence.
Qed.

Lemma run_synth_stays (es : list Event) (s : State) :
  synth s = true -> synth (fst (run s es)) = true.
Proof.
  revert s. induction es as [|e es IH]; intros s Hs; [exact Hs|].
  rewrite run_cons. now apply IH, step_synth_stays.
Qed.

Lemma step_without_synth (s : State) (e : Event) :
  synth s = false ->
  isPlaying s = false ->
  synth (fst (step s e)) = false ->
  snd (step s e) = []
  /\ isPlaying (fst (step s e)) = false
  /\ activeNotes (fst (step s e)) = activeNotes s.
Proof.
  intros Hs Hp. destruct e; simpl;
    unfold handleCanvasClick, handleMouseDown, handleMouseMove, handleMouseUp,
      playRecorded, stopPlayback, playNote, stopNote;
    simpl; rewrite ?Hs, ?Hp; simpl;
    repeat match goal with
      | |- context [match clickedNote ?a ?b ?c with _ => _ end] =>
          destruct (clickedNote a b c)
      | |- context [match selectedNote ?t with _ => _ end] =>
          destruct (selectedNote t)
      | |- context [if ?b then _ else _] => destruct b
      | cb : Callback |- _ => destruct cb
      end;
    simpl; rewrite ?Hs, ?Hp; intros; repeat split; congruence.
Qed.

Lemma run_without_synth (es : list Event) (s : State) :
  isPlaying s = false ->
  synth (fst (run s es)) = false ->
  snd (run s es) = []
  /\ isPlaying (fst (run s es)) = false
  /\ activeNotes (fst (run s es)) = activeNotes s.
Proof.
  revert s. induction es as [|e es IH]; intros s Hp Hend.
  - repeat split. exact Hp.
  - rewrite run_cons in *. rewrite run_cons_calls.
    assert (Hs : synth s = false).
    { destruct (synth s) eqn:Hs; [|reflexivity].
      rewrite (run_synth_stays es) in Hend; [discriminate|].
      now apply step_synth_stays. }
    assert (Hs1 : synth (fst (step s e)) = false).
    { destruct (synth (fst (step s e))) eqn:Hs1; [|reflexivity].
      now rewrite (run_synth_stays es) in Hend. }
    destruct (step_without_synth s e Hs Hp Hs1) as (Hc & Hp1 & Ha).
    destruct (IH _ Hp1 Hend) as (Hc' & Hp' & Ha').
    rewrite Hc, Hc', Hp', Ha', Ha. repeat split.
Qed.

Lemma step_playing_has_synth (s : State) (e : Event) :
  (isPlaying s = true -> synth s = true) ->
  isPlaying (fst (step s e)) = true -> synth (fst (step s e)) = true.
Proof.
  intros IH. destruct e; simpl; try exact IH; try reflexivity.
  - unfold handleCanvasClick, playNote.
    destruct (clickedNote _ _ _); simpl; [exact IH|].
    destruct (isDragging s); simpl; [exact IH|].
    destruct (synth s) eqn:Hs; simpl; destruct (_ >=? _); simpl;
      rewrite ?Hs; auto.
  - unfold handleMouseDown. destruct (clickedNote _ _ _); exact IH.
  - unfold handleMouseMove. destruct (isDragging s); [|exact IH].
    destruct (selectedNote s); exact IH.
  - destruct (isPlaying s) eqn:Hp; simpl; [discriminate|].
    unfold playRecorded. rewrite Hp.
    destruct (synth s) eqn:Hs; simpl; rewrite ?Hs, ?Hp; auto.
  - destruct cb. simpl. discriminate.
  - unfold playNote. destruct (synth s) eqn:Hs; simpl; rewrite ?Hs; auto.
  - unfold stopNote. destruct (synth s) eqn:Hs; simpl; rewrite ?Hs; auto.
  - unfold stopNote. destruct (synth s) eqn:Hs; simpl; rewrite ?Hs; auto.
Qed.

(** X17. Nothing reaches the audio engine before the synth exists, and
    the session is only ever playing with a synth: after every sequence of
    events, if the synth has not been created yet then no engine or
    transport call has been made, no pitch is marked active and the session
    is not playing (notes can still be placed and dragged); and whenever
    the session is playing the synth exists. *)
Theorem no_audio_without_synth (es : list Event) :
  (synth (stateAfter es) = false ->
   snd (run initialState es) = []
   /\ activeNotes (stateAfter es) = []
   /\ isPlaying (stateAfter es) = false)
  /\ (isPlaying (stateAfter es) = true -> synth (stateAfter es) = true).
Proof.
  split.
  - intros Hs. unfold stateAfter in *.
    destruct (run_without_synth es initialState eq_refl Hs) as (Hc & Hp & Ha).
    repeat split; assumption.
  - apply (stateAfter_ind (fun s => isPlaying s = true -> synth s = true)).
    + discriminate.
    + exact step_playing_has_synth.
Qed.

Lemma no_audio_without_synth_witness :
  synth (stateAfter [Click 80 10 1000; PlayStopButton 0; PianoMouseDown "C4"]) = false
  /\ snd (run initialState [Click 80 10 1000; PlayStopButton 0; PianoMouseDown "C4"]) = []
  /\ isPlaying (stateAfter [SynthCreated; PlayStopButton 0]) = true
  /\ synth (stateAfter [SynthCreated; PlayStopButton 0]) = true.
Proof.
  split; [reflexivity|]. split.
  - apply (proj1 (no_audio_without_synth
                    [Click 80 10 1000; PlayStopButton 0; PianoMouseDown "C4"])).
    reflexivity.
  - split; [reflexivity|].
    apply (proj2 (no_audio_without_synth [SynthCreated; PlayStopButton 0])).
    reflexivity.
Defined.

Lemma step_pointer_attacks (s : State) (e : Event) :
  isPointerEvent e = true ->
  exists added,
    activeNotes (fst (step s e)) = activeNotes s ++ added
    /\ snd (step s e) = map TriggerAttack added.
Proof.
  intros He. destruct e; try discriminate He; handler_cases;
    try (exists []; rewrite app_nil_r; split; reflexivity);
    eexists [_]; split; reflexivity.
Qed.

(** X18. The grid only ever attacks. Over any sequence of canvas events
    (click, press, move, release, leave) the engine calls are attacks,
    one per pitch appended to the active pitches, in the same order; no
    release and no releaseAll is issued, and no active pitch is removed:
    the preview attack of a placed note is never released by the grid. *)
Theorem pointer_events_only_attack (es : list Event) (s : State) :
  forallb isPointerEvent es = true ->
  exists added,
    activeNotes (fst (run s es)) = activeNotes s ++ added
    /\ snd (run s es) = map TriggerAttack added
    /\ filter isRelease (snd (run s es)) = [].
Proof.
  revert s. induction es as [|e es IH]; intros s Hes.
  - exists []. rewrite app_nil_r. repeat split.
  - simpl in Hes. apply andb_true_iff in Hes. destruct Hes as [He Hes].
    rewrite run_cons, run_cons_calls.
    destruct (step_pointer_attacks s e He) as (a1 & Ha1 & Hc1).
    destruct (IH (fst (step s e)) Hes) as (a2 & Ha2 & Hc2 & Hr2).
    exists (a1 ++ a2). split; [|split].
    + now rewrite Ha2, Ha1, app_assoc.
    + now rewrite Hc1, Hc2, map_app.
    + rewrite filter_app, Hr2, Hc1, app_nil_r.
      clear. induction a1 as [|p a1 IH]; simpl; [reflexivity|exact IH].
Qed.

Lemma pointer_events_only_attack_witness :
  forallb isPointerEvent (dragGesture 80 10 260 35 2000) = true
  /\ exists added,
       activeNotes (fst (run (stateAfter placeTrace) (dragGesture 80 10 260 35 2000)))
       = activeNotes (stateAfter placeTrace) ++ added
       /\ snd (run (stateAfter placeTrace) (dragGesture 80 10 260 35 2000))
          = map TriggerAttack added
       /\ filter isRelease (snd (run (stateAfter placeTrace)
                                     (dragGesture 80 10 260 35 2000))) = [].
Proof.
  split; [reflexivity|].
  apply (pointer_events_only_attack (dragGesture 80 10 260 35 2000)
           (stateAfter placeTrace)).
  reflexivity.
Defined.

(** ** Sessions confined to the canvas *)

Lemma onCanvas_cell (s : State) (x y : Q) :
  onCanvas s x y = true ->
  0 <= Math_floor_div y CELL_SIZE < Z.of_nat (length allNotes)
  /\ 0 <= Math_floor_div x CELL_SIZE < numberOfColumns s.
Proof.
  unfold onCanvas. rewrite !andb_true_iff, !negb_true_iff.
  intros [[[Hx0 Hx1] Hy0] Hy1].
  apply Qle_bool_iff in Hx0, Hy0.
  assert (Hx1' : (x < inject_Z (numberOfColumns s * CELL_SIZE))%Q).
  { apply Qnot_le_lt. intros H. apply Qle_bool_iff in H. congruence. }
  assert (Hy1' : (y < inject_Z (Z.of_nat (length allNotes) * CELL_SIZE))%Q).
  { apply Qnot_le_lt. intros H. apply Qle_bool_iff in H. congruence. }
  assert (Hd : 0 < CELL_SIZE) by reflexivity.
  repeat split.
  - now apply Math_floor_div_ge.
  - now apply Math_floor_div_lt.
  - now apply Math_floor_div_ge.
  - now apply Math_floor_div_lt.
Qed.

Lemma onGrid_columns (s s' : State) (n : Note) :
  numberOfColumns s <= numberOfColumns s' -> onGrid s n -> onGrid s' n.
Proof. unfold onGrid. lia. Qed.

Lemma step_onGrid (s : State) (e : Event) :
  insideCanvas s e = true ->
  Forall (onGrid s) (notes s) ->
  Forall (onGrid (fst (step s e))) (notes (fst (step s e))).
Proof.
  intros He Hs.
  assert (Hkeep : forall (s' : State) (f : Note -> Note),
             numberOfColumns s <= numberOfColumns s' ->
             (forall n, onGrid s' n -> onGrid s' (f n)) ->
             Forall (onGrid s') (map f (notes s))).
  { intros s' f Hcols Hf. apply Forall_map. eapply Forall_impl; [|exact Hs].
    intros n Hn. apply Hf. now apply (onGrid_columns s). }
  destruct e as [|x y t|x y|x y| | |now|cb|p|p|p]; simpl in He;
    try apply onCanvas_cell in He as [Hrow Hcol].
  - exact Hs.
  - (* click *)
    simpl. unfold handleCanvasClick, playNote.
    destruct (clickedNote _ _ _) as [c|]; simpl.
    + apply Hkeep; [simpl; lia|]. now intros n Hn.
    + destruct (isDragging s); simpl; [exact Hs|].
      destruct (synth s), (_ >=? _); simpl;
        (apply Forall_app; split;
         [apply Hkeep; [simpl; lia|now intros n Hn]
         |constructor; [|constructor]; split;
          cbn [rowIndex colIndex numberOfColumns setNumberOfColumns
                 setActiveNotes setSelectedNote setNotes]; lia]).
  - simpl. unfold handleMouseDown. now destruct (clickedNote _ _ _).
  - (* drag step *)
    simpl. unfold handleMouseMove.
    destruct (isDragging s); [|exact Hs].
    destruct (selectedNote s) as [sel|]; [|exact Hs].
    simpl. apply Hkeep; [simpl; lia|]. intros n Hn.
    destruct (String.eqb _ _); [|exact Hn].
    split; cbn [rowIndex colIndex withPosition numberOfColumns setNotes]; lia.
  - exact Hs.
  - exact Hs.
  - simpl. destruct (isPlaying s); [exact Hs|].
    unfold playRecorded. now destruct (synth s && _).
  - simpl. now destruct cb.
  - simpl. unfold playNote. now destruct (synth s).
  - simpl. unfold stopNote. now destruct (synth s).
  - simpl. unfold stopNote. now destruct (synth s).
Qed.

Lemma run_onGrid (es : list Event) (s : State) :
  sessionInside s es = true ->
  Forall (onGrid s) (notes s) ->
  Forall (onGrid (fst (run s es))) (notes (fst (run s es))).
Proof.
  revert s. induction es as [|e es IH]; intros s Hes Hs; [exact Hs|].
  simpl in Hes. apply andb_true_iff in Hes. destruct Hes as [He Hes].
  rewrite run_cons. apply IH; [exact Hes|]. now apply step_onGrid.
Qed.

(** X19. A session whose pointer events all land on the canvas never
    leaves the lattice: if every click, press and move of the session is
    delivered at a position inside the notes canvas as sized at that
    moment, then every stored note sits in a row in [0, 60) and a column
    in [0, numberOfColumns), and its pitch is a defined pitch name. *)
Theorem session_on_canvas_stays_on_grid (es : list Event) :
  sessionInside initialState es = true ->
  Forall (fun n => onGrid (stateAfter es) n /\ exists p, note n = Some p)
         (notes (stateAfter es)).
Proof.
  intros Hes.
  pose proof (run_onGrid es initialState Hes (Forall_nil _)) as Hgrid.
  pose proof (stateAfter_note_shape es) as Hshape.
  fold (stateAfter es) in Hgrid.
  rewrite Forall_forall in *. intros n Hn.
  split; [now apply Hgrid|].
  destruct (Hshape n Hn) as [_ Hp]. rewrite Hp.
  apply index_in_range. now apply (Hgrid n Hn).
Qed.

Lemma session_on_canvas_stays_on_grid_witness :
  sessionInside initialState dropTrace = true
  /\ Forall (fun n => onGrid (stateAfter dropTrace) n /\ exists p, note n = Some p)
            (notes (stateAfter dropTrace)).
Proof.
  split; [reflexivity|].
  apply (session_on_canvas_stays_on_grid dropTrace). reflexivity.
Defined.

Lemma drawNote_fillRect (n : Note) :
  filter isFillRect (drawNote n)
  = [FillRect (colIndex n * NOTE_WIDTH) (rowIndex n * NOTE_HEIGHT)
              (NOTE_WIDTH * duration n) NOTE_HEIGHT].
Proof. reflexivity. Qed.

Lemma drawAllNotes_fillRects (s : State) :
  filter isFillRect (drawAllNotes s)
  = map (fun n => FillRect (colIndex n * NOTE_WIDTH) (rowIndex n * NOTE_HEIGHT)
                           (NOTE_WIDTH * duration n) NOTE_HEIGHT)
        (notes s).
Proof.
  unfold drawAllNotes. cbn [filter isFillRect].
  induction (notes s) as [|n ns IH]; [reflexivity|].
  cbn [flat_map map]. rewrite filter_app, drawNote_fillRect, IH. reflexivity.
Qed.

(** X20. The notes layer of such a session is painted inside the canvas:
    [drawAllNotes] clears the whole canvas and fills one rectangle per
    stored note, in store order, and when every pointer event of the
    session landed on the canvas each filled rectangle is one cell wide
    and high and lies within the cleared area. *)
Theorem drawAllNotes_inside_canvas (es : list Event) :
  sessionInside initialState es = true ->
  let s := stateAfter es in
  length (filter isFillRect (drawAllNotes s)) = length (notes s)
  /\ forall x y w h,
       In (FillRect x y w h) (drawAllNotes s) ->
       In (ClearRect 0 0 (numberOfColumns s * CELL_SIZE)
                     (Z.of_nat (length allNotes) * CELL_SIZE))
          (drawAllNotes s)
       /\ w = CELL_SIZE /\ h = CELL_SIZE
       /\ 0 <= x /\ x + w <= numberOfColumns s * CELL_SIZE
       /\ 0 <= y /\ y + h <= Z.of_nat (length allNotes) * CELL_SIZE.
Proof.
  intros Hes. cbv zeta. split.
  - now rewrite drawAllNotes_fillRects, length_map.
  - intros x y w h Hin. split; [now left|].
    assert (Hf : In (FillRect x y w h) (filter isFillRect (drawAllNotes (stateAfter es))))
      by (apply filter_In; split; [exact Hin|reflexivity]).
    rewrite drawAllNotes_fillRects in Hf. apply in_map_iff in Hf.
    destruct Hf as (n & Heq & Hn). injection Heq as <- <- <- <-.
    pose proof (run_onGrid es initialState Hes (Forall_nil _)) as Hgrid.
    pose proof (stateAfter_note_shape es) as Hshape.
    fold (stateAfter es) in Hgrid. rewrite Forall_forall in *.
    destruct (Hshape n Hn) as [Hd _]. destruct (Hgrid n Hn) as [Hrow Hcol].
    rewrite Hd. unfold NOTE_WIDTH, NOTE_HEIGHT, CELL_SIZE in *. lia.
Qed.

Lemma drawAllNotes_inside_canvas_witness :
  sessionInside initialState dropTrace = true
  /\ length (filter isFillRect (drawAllNotes (stateAfter dropTrace)))
     = length (notes (stateAfter dropTrace)).
Proof.
  split; [reflexivity|].
  apply (drawAllNotes_inside_canvas dropTrace). reflexivity.
Defined.
